(** * Countdown sketches: a shallow embedding and its properties

    Two p5.js sketches are modelled here:
    - [Sketch]      : [src/sketch.js], the countdown to the next April 11;
    - [FontSketch]  : [src/unnamed/part_000], the 100-day countdown that
                      also rotates the digit font.

    Each sketch keeps its data in module-level [let] variables and mutates
    them from [updateCountdown], [draw] and the [setTimeout] callbacks.  The
    module-level variables become one record of globals, and the functions
    become computations in a small state monad over that record.

    Numbers.  [Date.now()], [Date.prototype.getTime()] and the countdown
    fields are integral doubles far below 2^53, so they are modelled by [Z];
    on that range [Math.floor(a / b)] is the floor quotient and [a % b] the
    truncated remainder.  The readings of [millis()] are modelled as exact
    integer milliseconds as well. *)

From Stdlib Require Import ZArith List String Ascii Bool Lia DecimalString Sorted.
Import ListNotations.
Local Open Scope Z_scope.

(** ** JavaScript operators on integral numbers *)

Module JS.

(** [a % b]: the remainder takes the sign of the dividend. *)
Definition rem (a b : Z) : Z := Z.rem a b.

(** [Math.floor(a / b)]. *)
Definition floor_div (a b : Z) : Z := Z.div a b.

(** [a !== b] on numbers. *)
Definition strict_neq (a b : Z) : bool := negb (a =? b).

(** [a === b] on numbers. *)
Definition strict_eq (a b : Z) : bool := a =? b.

End JS.

(** ** A state monad over the record of module-level variables *)

Section StateMonad.

Context {S : Type}.

Definition M (A : Type) : Type := S -> A * S.

Definition ret {A} (a : A) : M A := fun s => (a, s).

Definition bind {A B} (c : M A) (k : A -> M B) : M B :=
  fun s => let (a, s') := c s in k a s'.

Definition gets {A} (proj : S -> A) : M A := fun s => (proj s, s).

Definition modify (f : S -> S) : M unit := fun s => (tt, f s).

(** [if (b) { c }] with no [else]. *)
Definition when (b : bool) (c : M unit) : M unit :=
  if b then c else ret tt.

End StateMonad.

Arguments M : clear implicits.

Declare Scope js_scope.
Delimit Scope js_scope with js.
Notation "x <- c ;; k" := (bind c (fun x => k))
  (at level 61, c at next level, right associativity) : js_scope.
Notation "c ;; k" := (bind c (fun _ => k))
  (at level 61, right associativity) : js_scope.
Notation "a !== b" := (JS.strict_neq a b) (at level 70, no associativity) : js_scope.
Notation "a === b" := (JS.strict_eq a b) (at level 70, no associativity) : js_scope.

(** ** Data shared by both sketches *)

(** The four countdown fields. *)
Inductive field : Type := Days | Hours | Minutes | Seconds.

(** The object [animatingElements = { days, hours, minutes, seconds }]. *)
Record animating : Type := mkAnimating {
  a_days : bool;
  a_hours : bool;
  a_minutes : bool;
  a_seconds : bool
}.

Definition flag (f : field) (a : animating) : bool :=
  match f with
  | Days => a_days a
  | Hours => a_hours a
  | Minutes => a_minutes a
  | Seconds => a_seconds a
  end.

(** [animatingElements.f = b] *)
Definition set_flag (f : field) (b : bool) (a : animating) : animating :=
  match f with
  | Days => mkAnimating b (a_hours a) (a_minutes a) (a_seconds a)
  | Hours => mkAnimating (a_days a) b (a_minutes a) (a_seconds a)
  | Minutes => mkAnimating (a_days a) (a_hours a) b (a_seconds a)
  | Seconds => mkAnimating (a_days a) (a_hours a) (a_minutes a) b
  end.

(** The only closures handed to [setTimeout] are
    [() => { animatingElements.f = false; }]; a closure is represented by
    the field whose flag it clears. *)
Inductive callback : Type := ResetFlag (f : field).

(** A call [setTimeout(cb, delay)]. *)
Definition timeout : Type := (callback * Z)%type.

(** *** The canvas

    Of the drawing calls only [text] is recorded: the string drawn and the
    opacity of the fill colour set before it.  The gradient, sizes and
    positions do not depend on the countdown. *)
Record painted : Type := mkPainted {
  p_text : string;
  p_alpha : Z
}.

(** How a call ends: it returns, or it throws. *)
Inductive completion : Type := Returned | Threw (e : string).

(** What a piece of drawing code leaves behind: the texts it drew, in
    order, and how it ended. *)
Definition drawing : Type := (list painted * completion)%type.

(** Statements in sequence: a throw skips what follows. *)
Fixpoint sequence (ds : list drawing) : drawing :=
  match ds with
  | [] => ([], Returned)
  | (ps, Threw e) :: _ => (ps, Threw e)
  | (ps, Returned) :: rest =>
      let (qs, c) := sequence rest in (ps ++ qs, c)
  end.

(** What an identifier is bound to where it is called. *)
Inductive binding : Type :=
| P5Function                 (* a function of the p5 library *)
| NumberValue (percent : Z). (* a number, in hundredths *)

(** [callee(...)]: calling a number throws. *)
Definition call (callee : binding) : completion :=
  match callee with
  | P5Function => Returned
  | NumberValue _ => Threw "TypeError"
  end.

(** ** [String(num)] and [padStart] *)

Module Str.

(** [String(num)] for an integral [num] below 10^21 in magnitude: the
    decimal digits, with a leading minus sign when negative. *)
Definition String_ (num : Z) : string :=
  NilZero.string_of_int (Z.to_int num).

(** [n] characters taken from [padString] repeated; [cur] is what is left
    of the current copy. *)
Fixpoint filler (n : nat) (cur padString : string) : string :=
  match n with
  | O => EmptyString
  | S n' =>
      match cur with
      | String c rest => String c (filler n' rest padString)
      | EmptyString =>
          match padString with
          | String c rest => String c (filler n' rest padString)
          | EmptyString => EmptyString
          end
      end
  end.

(** [s.padStart(targetLength, padString)] *)
Definition padStart (s : string) (targetLength : Z) (padString : string) : string :=
  let len := Z.of_nat (String.length s) in
  if targetLength <=? len then s
  else
    match padString with
    | EmptyString => s
    | _ => (filler (Z.to_nat (targetLength - len)) padString padString ++ s)%string
    end.

(** [function pad(num, digits = 2)]; [None] is the omitted argument. *)
Definition pad (num : Z) (digits : option Z) : string :=
  let digits := match digits with Some d => d | None => 2 end in
  padStart (String_ num) digits "0".

End Str.

(** ** The host's [Date] *)

(** What the sketches use of [Date]; a date object is represented by its
    time value, the milliseconds since the epoch.
    - [newDate y m d] is [new Date(y, m, d, 0, 0, 0, 0)]: local midnight of
      the day [d] of month index [m] of year [y];
    - [getFullYear t], [getDate t] are the local year and day of month;
    - [setDate t d] is the time value after [date.setDate(d)]. *)
Class HostDate : Type := {
  newDate : Z -> Z -> Z -> Z;
  getFullYear : Z -> Z;
  getDate : Z -> Z;
  setDate : Z -> Z -> Z
}.

(** A host whose local time zone is UTC, over the proleptic Gregorian
    calendar; it serves to run the sketches on concrete instants. *)
Module Gregorian.

Definition msPerDay : Z := 86400000.

(** Day number (days since 1970-01-01) of the day [d] of month [m]
    (1 to 12) of year [y]; [d] may exceed the length of the month. *)
Definition days_from_civil (y m d : Z) : Z :=
  let y' := if m <=? 2 then y - 1 else y in
  let era := y' / 400 in
  let yoe := y' - era * 400 in
  let mp := if 2 <? m then m - 3 else m + 9 in
  let doy := (153 * mp + 2) / 5 + d - 1 in
  let doe := yoe * 365 + yoe / 4 - yoe / 100 + doy in
  era * 146097 + doe - 719468.

(** Year, month (1 to 12) and day of month of a day number. *)
Definition civil_from_days (z : Z) : Z * Z * Z :=
  let z' := z + 719468 in
  let era := z' / 146097 in
  let doe := z' - era * 146097 in
  let yoe := (doe - doe / 1460 + doe / 36524 - doe / 146096) / 365 in
  let doy := doe - (365 * yoe + yoe / 4 - yoe / 100) in
  let mp := (5 * doy + 2) / 153 in
  let d := doy - (153 * mp + 2) / 5 + 1 in
  let m := if mp <? 10 then mp + 3 else mp - 9 in
  let y := yoe + era * 400 in
  ((if m <=? 2 then y + 1 else y), m, d).

(** [MakeDay(year, month, date)] scaled to milliseconds: the month index
    is normalised into the year first. *)
Definition makeDay (year month date : Z) : Z :=
  let ym := year + month / 12 in
  let mn := month mod 12 in
  days_from_civil ym (mn + 1) date * msPerDay.

Definition yearFromTime (t : Z) : Z :=
  let '(y, _, _) := civil_from_days (t / msPerDay) in y.

Definition monthFromTime (t : Z) : Z :=
  let '(_, m, _) := civil_from_days (t / msPerDay) in m - 1.

Definition dateFromTime (t : Z) : Z :=
  let '(_, _, d) := civil_from_days (t / msPerDay) in d.

#[export] Instance utc : HostDate := {
  newDate := makeDay;
  getFullYear := yearFromTime;
  getDate := dateFromTime;
  setDate t d := makeDay (yearFromTime t) (monthFromTime t) d + t mod msPerDay
}.

End Gregorian.

(** What the host's clocks return during one call of [draw]: [millis()],
    the [Date.now()] read inside [updateCountdown] (when it is called) and
    the [Date.now()] read by the completion test of the frame. *)
Record readings : Type := mkReadings {
  r_millis : Z;
  r_sample : Z;
  r_render : Z
}.

(** What the host does with a sketch after [setup]: it calls [draw] for a
    frame, it runs a callback given to [setTimeout], or it calls
    [windowResized]. *)
Inductive event : Type :=
| Frame (r : readings)
| Timer (cb : callback)
| Resized.

Local Open Scope js_scope.

(** ** [src/sketch.js] *)

Module Sketch.

(** The module-level variables.  [targetDate] is declared without a value
    and assigned by [setup] before anything reads it.  [timers] is not a
    variable of the sketch: it records the calls made to [setTimeout],
    most recent first. *)
Record globals : Type := mkGlobals {
  targetDate : Z;
  days : Z;
  hours : Z;
  minutes : Z;
  seconds : Z;
  prevDays : Z;
  prevHours : Z;
  prevMinutes : Z;
  prevSeconds : Z;
  animatingElements : animating;
  lastUpdateTime : Z;
  timers : list timeout
}.

Definition updateInterval : Z := 250.

(** The values the declarations give; [targetDate] holds 0 for "not yet
    assigned". *)
Definition initial : globals :=
  mkGlobals 0 0 0 0 0 (-1) (-1) (-1) (-1)
            (mkAnimating false false false false) 0 [].

(** *** Assignments *)

Definition assign_targetDate (v : Z) : M globals unit :=
  modify (fun s => mkGlobals v (days s) (hours s) (minutes s) (seconds s)
    (prevDays s) (prevHours s) (prevMinutes s) (prevSeconds s)
    (animatingElements s) (lastUpdateTime s) (timers s)).

Definition assign_days (v : Z) : M globals unit :=
  modify (fun s => mkGlobals (targetDate s) v (hours s) (minutes s) (seconds s)
    (prevDays s) (prevHours s) (prevMinutes s) (prevSeconds s)
    (animatingElements s) (lastUpdateTime s) (timers s)).

Definition assign_hours (v : Z) : M globals unit :=
  modify (fun s => mkGlobals (targetDate s) (days s) v (minutes s) (seconds s)
    (prevDays s) (prevHours s) (prevMinutes s) (prevSeconds s)
    (animatingElements s) (lastUpdateTime s) (timers s)).

Definition assign_minutes (v : Z) : M globals unit :=
  modify (fun s => mkGlobals (targetDate s) (days s) (hours s) v (seconds s)
    (prevDays s) (prevHours s) (prevMinutes s) (prevSeconds s)
    (animatingElements s) (lastUpdateTime s) (timers s)).

Definition assign_seconds (v : Z) : M globals unit :=
  modify (fun s => mkGlobals (targetDate s) (days s) (hours s) (minutes s) v
    (prevDays s) (prevHours s) (prevMinutes s) (prevSeconds s)
    (animatingElements s) (lastUpdateTime s) (timers s)).

Definition assign_prevDays (v : Z) : M globals unit :=
  modify (fun s => mkGlobals (targetDate s) (days s) (hours s) (minutes s) (seconds s)
    v (prevHours s) (prevMinutes s) (prevSeconds s)
    (animatingElements s) (lastUpdateTime s) (timers s)).

Definition assign_prevHours (v : Z) : M globals unit :=
  modify (fun s => mkGlobals (targetDate s) (days s) (hours s) (minutes s) (seconds s)
    (prevDays s) v (prevMinutes s) (prevSeconds s)
    (animatingElements s) (lastUpdateTime s) (timers s)).

Definition assign_prevMinutes (v : Z) : M globals unit :=
  modify (fun s => mkGlobals (targetDate s) (days s) (hours s) (minutes s) (seconds s)
    (prevDays s) (prevHours s) v (prevSeconds s)
    (animatingElements s) (lastUpdateTime s) (timers s)).

Definition assign_prevSeconds (v : Z) : M globals unit :=
  modify (fun s => mkGlobals (targetDate s) (days s) (hours s) (minutes s) (seconds s)
    (prevDays s) (prevHours s) (prevMinutes s) v
    (animatingElements s) (lastUpdateTime s) (timers s)).

(** [animatingElements.f = b] *)
Definition assign_animating (f : field) (b : bool) : M globals unit :=
  modify (fun s => mkGlobals (targetDate s) (days s) (hours s) (minutes s) (seconds s)
    (prevDays s) (prevHours s) (prevMinutes s) (prevSeconds s)
    (set_flag f b (animatingElements s)) (lastUpdateTime s) (timers s)).

Definition assign_lastUpdateTime (v : Z) : M globals unit :=
  modify (fun s => mkGlobals (targetDate s) (days s) (hours s) (minutes s) (seconds s)
    (prevDays s) (prevHours s) (prevMinutes s) (prevSeconds s)
    (animatingElements s) v (timers s)).

(** [setTimeout(cb, delay)] *)
Definition setTimeout (cb : callback) (delay : Z) : M globals unit :=
  modify (fun s => mkGlobals (targetDate s) (days s) (hours s) (minutes s) (seconds s)
    (prevDays s) (prevHours s) (prevMinutes s) (prevSeconds s)
    (animatingElements s) (lastUpdateTime s) ((cb, delay) :: timers s)).

(** The body of a callback given to [setTimeout]. *)
Definition runCallback (cb : callback) : M globals unit :=
  match cb with
  | ResetFlag f => assign_animating f false
  end.

(** *** [getTargetDate]; [now] is the time value of [new Date()]. *)
Definition getTargetDate `{HostDate} (now : Z) : Z :=
  let currentYear := getFullYear now in
  let april11ThisYear := newDate currentYear 3 11 in
  if april11ThisYear <? now then newDate (currentYear + 1) 3 11
  else april11ThisYear.

(** *** [updateCountdown]; [now] is what [Date.now()] returns. *)
Definition updateCountdown (now : Z) : M globals bool :=
  target <- gets targetDate ;;
  let difference := target - now in
  if difference <=? 0 then
    assign_days 0 ;;
    assign_hours 0 ;;
    assign_minutes 0 ;;
    assign_seconds 0 ;;
    ret true
  else
    assign_days (JS.floor_div difference (1000 * 60 * 60 * 24)) ;;
    assign_hours (JS.floor_div (JS.rem difference (1000 * 60 * 60 * 24)) (1000 * 60 * 60)) ;;
    assign_minutes (JS.floor_div (JS.rem difference (1000 * 60 * 60)) (1000 * 60)) ;;
    assign_seconds (JS.floor_div (JS.rem difference (1000 * 60)) 1000) ;;
    pd <- gets prevDays ;; d <- gets days ;;
    when (pd !== d)
      (assign_animating Days true ;; setTimeout (ResetFlag Days) 200) ;;
    ph <- gets prevHours ;; h <- gets hours ;;
    when (ph !== h)
      (assign_animating Hours true ;; setTimeout (ResetFlag Hours) 200) ;;
    pm <- gets prevMinutes ;; m <- gets minutes ;;
    when (pm !== m)
      (assign_animating Minutes true ;; setTimeout (ResetFlag Minutes) 200) ;;
    ps <- gets prevSeconds ;; sec <- gets seconds ;;
    when (ps !== sec)
      (assign_animating Seconds true ;; setTimeout (ResetFlag Seconds) 200) ;;
    d <- gets days ;; assign_prevDays d ;;
    h <- gets hours ;; assign_prevHours h ;;
    m <- gets minutes ;; assign_prevMinutes m ;;
    sec <- gets seconds ;; assign_prevSeconds sec ;;
    ret false.

(** *** [setup]; [t0] is the time value of [new Date()] in
    [getTargetDate], [t1] what [Date.now()] returns in [updateCountdown]. *)
Definition setup `{HostDate} (t0 t1 : Z) : M globals unit :=
  assign_targetDate (getTargetDate t0) ;;
  _ <- updateCountdown t1 ;;
  ret tt.

(** *** [drawTimeUnit] and [drawSeparator] *)
Definition drawTimeUnit (value : Z) (label : string) (isAnimating : bool) : drawing :=
  let scaleFactor := NumberValue (if isAnimating then 110 else 100) in
  let alpha := if isAnimating then 180 else 255 in
  let scale := P5Function in
  match call scale with
  | Threw e => ([], Threw e)
  | Returned => ([mkPainted (Str.pad value None) alpha; mkPainted label 230], Returned)
  end.

Definition drawSeparator : drawing := ([mkPainted ":" 180], Returned).

(** *** [draw]: the throttled sampling, then the frame. *)
Definition draw `{HostDate} (r : readings) : M globals drawing :=
  let now := r_millis r in
  last <- gets lastUpdateTime ;;
  when (updateInterval <=? now - last)
    (_ <- updateCountdown (r_sample r) ;;
     assign_lastUpdateTime now) ;;
  target <- gets targetDate ;;
  let targetYear := getFullYear target in
  d <- gets days ;; h <- gets hours ;; m <- gets minutes ;; sec <- gets seconds ;;
  let isComplete :=
    (d === 0) && (h === 0) && (m === 0) && (sec === 0) && (target <=? r_render r) in
  a <- gets animatingElements ;;
  ret (sequence
    [ ([mkPainted ("Countdown to April 11, " ++ Str.String_ targetYear) 255], Returned);
      ((if isComplete then [mkPainted "Countdown complete" 255] else []), Returned);
      drawTimeUnit d "Days" (a_days a);
      drawSeparator;
      drawTimeUnit h "Hours" (a_hours a);
      drawSeparator;
      drawTimeUnit m "Minutes" (a_minutes a);
      drawSeparator;
      drawTimeUnit sec "Seconds" (a_seconds a) ]).

(** [windowResized] resizes the canvas and touches no variable. *)
Definition windowResized : M globals unit := ret tt.

Definition step `{HostDate} (e : event) (s : globals) : globals :=
  match e with
  | Frame r => snd (draw r s)
  | Timer cb => snd (runCallback cb s)
  | Resized => snd (windowResized s)
  end.

(** The state after a sequence of host events. *)
Definition run `{HostDate} (es : list event) (s : globals) : globals :=
  fold_left (fun s e => step e s) es s.

(** The countdown as it stands: [(days, hours, minutes, seconds)]. *)
Definition remaining (s : globals) : Z * Z * Z * Z :=
  (days s, hours s, minutes s, seconds s).

(** The total of the displayed fields, in seconds. *)
Definition totalSeconds (s : globals) : Z :=
  days s * 86400 + hours s * 3600 + minutes s * 60 + seconds s.

End Sketch.

(** ** [src/unnamed/part_000] *)

Module FontSketch.

(** The module-level variables.  [fonts] is a constant of the sketch; it
    is kept with the variables so that the rotation can be studied for any
    list.  [currentFont] is declared without a value: [None] is
    [undefined], which is also what [fonts[i]] gives outside the list.
    [timers] records the calls made to [setTimeout], most recent first. *)
Record globals : Type := mkGlobals {
  fonts : list string;
  targetDate : Z;
  currentFontIndex : Z;
  previousFontIndex : Z;
  currentFont : option string;
  days : Z;
  hours : Z;
  minutes : Z;
  seconds : Z;
  prevDays : Z;
  prevHours : Z;
  prevMinutes : Z;
  prevSeconds : Z;
  animatingElements : animating;
  lastUpdateTime : Z;
  timers : list timeout
}.

Definition updateInterval : Z := 250.

(** *** Assignments *)

Definition assign_targetDate (v : Z) : M globals unit :=
  modify (fun s => mkGlobals
    (fonts s) v (currentFontIndex s) (previousFontIndex s) (currentFont s)
    (days s) (hours s) (minutes s) (seconds s) (prevDays s) (prevHours s)
    (prevMinutes s) (prevSeconds s) (animatingElements s) (lastUpdateTime s)
    (timers s)).

Definition assign_currentFontIndex (v : Z) : M globals unit :=
  modify (fun s => mkGlobals
    (fonts s) (targetDate s) v (previousFontIndex s) (currentFont s) (days s)
    (hours s) (minutes s) (seconds s) (prevDays s) (prevHours s) (prevMinutes s)
    (prevSeconds s) (animatingElements s) (lastUpdateTime s) (timers s)).

Definition assign_previousFontIndex (v : Z) : M globals unit :=
  modify (fun s => mkGlobals
    (fonts s) (targetDate s) (currentFontIndex s) v (currentFont s) (days s)
    (hours s) (minutes s) (seconds s) (prevDays s) (prevHours s) (prevMinutes s)
    (prevSeconds s) (animatingElements s) (lastUpdateTime s) (timers s)).

Definition assign_days (v : Z) : M globals unit :=
  modify (fun s => mkGlobals
    (fonts s) (targetDate s) (currentFontIndex s) (previousFontIndex s)
    (currentFont s) v (hours s) (minutes s) (seconds s) (prevDays s)
    (prevHours s) (prevMinutes s) (prevSeconds s) (animatingElements s)
    (lastUpdateTime s) (timers s)).

Definition assign_hours (v : Z) : M globals unit :=
  modify (fun s => mkGlobals
    (fonts s) (targetDate s) (currentFontIndex s) (previousFontIndex s)
    (currentFont s) (days s) v (minutes s) (seconds s) (prevDays s) (prevHours s)
    (prevMinutes s) (prevSeconds s) (animatingElements s) (lastUpdateTime s)
    (timers s)).

Definition assign_minutes (v : Z) : M globals unit :=
  modify (fun s => mkGlobals
    (fonts s) (targetDate s) (currentFontIndex s) (previousFontIndex s)
    (currentFont s) (days s) (hours s) v (seconds s) (prevDays s) (prevHours s)
    (prevMinutes s) (prevSeconds s) (animatingElements s) (lastUpdateTime s)
    (timers s)).

Definition assign_seconds (v : Z) : M globals unit :=
  modify (fun s => mkGlobals
    (fonts s) (targetDate s) (currentFontIndex s) (previousFontIndex s)
    (currentFont s) (days s) (hours s) (minutes s) v (prevDays s) (prevHours s)
    (prevMinutes s) (prevSeconds s) (animatingElements s) (lastUpdateTime s)
    (timers s)).

Definition assign_prevDays (v : Z) : M globals unit :=
  modify (fun s => mkGlobals
    (fonts s) (targetDate s) (currentFontIndex s) (previousFontIndex s)
    (currentFont s) (days s) (hours s) (minutes s) (seconds s) v (prevHours s)
    (prevMinutes s) (prevSeconds s) (animatingElements s) (lastUpdateTime s)
    (timers s)).

Definition assign_prevHours (v : Z) : M globals unit :=
  modify (fun s => mkGlobals
    (fonts s) (targetDate s) (currentFontIndex s) (previousFontIndex s)
    (currentFont s) (days s) (hours s) (minutes s) (seconds s) (prevDays s) v
    (prevMinutes s) (prevSeconds s) (animatingElements s) (lastUpdateTime s)
    (timers s)).

Definition assign_prevMinutes (v : Z) : M globals unit :=
  modify (fun s => mkGlobals
    (fonts s) (targetDate s) (currentFontIndex s) (previousFontIndex s)
    (currentFont s) (days s) (hours s) (minutes s) (seconds s) (prevDays s)
    (prevHours s) v (prevSeconds s) (animatingElements s) (lastUpdateTime s)
    (timers s)).

Definition assign_prevSeconds (v : Z) : M globals unit :=
  modify (fun s => mkGlobals
    (fonts s) (targetDate s) (currentFontIndex s) (previousFontIndex s)
    (currentFont s) (days s) (hours s) (minutes s) (seconds s) (prevDays s)
    (prevHours s) (prevMinutes s) v (animatingElements s) (lastUpdateTime s)
    (timers s)).

Definition assign_lastUpdateTime (v : Z) : M globals unit :=
  modify (fun s => mkGlobals
    (fonts s) (targetDate s) (currentFontIndex s) (previousFontIndex s)
    (currentFont s) (days s) (hours s) (minutes s) (seconds s) (prevDays s)
    (prevHours s) (prevMinutes s) (prevSeconds s) (animatingElements s) v
    (timers s)).

Definition assign_currentFont (v : option string) : M globals unit :=
  modify (fun s => mkGlobals
    (fonts s) (targetDate s) (currentFontIndex s) (previousFontIndex s) v
    (days s) (hours s) (minutes s) (seconds s) (prevDays s) (prevHours s)
    (prevMinutes s) (prevSeconds s) (animatingElements s) (lastUpdateTime s)
    (timers s)).

(** [animatingElements.f = b] *)
Definition assign_animating (f : field) (b : bool) : M globals unit :=
  modify (fun s => mkGlobals
    (fonts s) (targetDate s) (currentFontIndex s) (previousFontIndex s)
    (currentFont s) (days s) (hours s) (minutes s) (seconds s) (prevDays s)
    (prevHours s) (prevMinutes s) (prevSeconds s)
    (set_flag f b (animatingElements s)) (lastUpdateTime s) (timers s)).

(** [setTimeout(cb, delay)] *)
Definition setTimeout (cb : callback) (delay : Z) : M globals unit :=
  modify (fun s => mkGlobals
    (fonts s) (targetDate s) (currentFontIndex s) (previousFontIndex s)
    (currentFont s) (days s) (hours s) (minutes s) (seconds s) (prevDays s)
    (prevHours s) (prevMinutes s) (prevSeconds s) (animatingElements s)
    (lastUpdateTime s) ((cb, delay) :: timers s)).
(** The body of a callback given to [setTimeout]. *)
Definition runCallback (cb : callback) : M globals unit :=
  match cb with
  | ResetFlag f => assign_animating f false
  end.

(** The list the sketch declares. *)
Definition fontList : list string :=
  [ "Roboto Mono"; "Space Mono"; "JetBrains Mono"; "Fira Code";
    "Source Code Pro"; "IBM Plex Mono"; "PT Mono"; "Share Tech Mono";
    "VT323"; "Orbitron"; "Rajdhani"; "Quantico"; "Courier New";
    "monospace" ]%string.

(** The values the declarations give, for a font list [fs]; [targetDate]
    holds 0 for "not yet assigned". *)
Definition initialWith (fs : list string) : globals :=
  mkGlobals fs 0 0 (-1) None 0 0 0 0 (-1) (-1) (-1) (-1)
            (mkAnimating false false false false) 0 [].

Definition initial : globals := initialWith fontList.

(** [l[i]] *)
Definition item (l : list string) (i : Z) : option string :=
  if i <? 0 then None else nth_error l (Z.to_nat i).

(** *** [getTargetDate]; [now] is the time value of [new Date()]. *)
Definition getTargetDate `{HostDate} (now : Z) : Z :=
  let jan1 := newDate (getFullYear now) 0 1 in
  let targetDate := jan1 in
  setDate targetDate (getDate jan1 + 100).

(** *** [getNextFont].  The remainder by [fonts.length] is a number only
    for a non-empty list; the results below are about non-empty lists. *)
Definition getNextFont : M globals (option string) :=
  fs <- gets fonts ;;
  let length := Z.of_nat (List.length fs) in
  i <- gets currentFontIndex ;;
  assign_currentFontIndex (JS.rem (i + 1) length) ;;
  i <- gets currentFontIndex ;; p <- gets previousFontIndex ;;
  when ((i === p) && (1 <? length))
    (i <- gets currentFontIndex ;;
     assign_currentFontIndex (JS.rem (i + 1) length)) ;;
  i <- gets currentFontIndex ;; assign_previousFontIndex i ;;
  i <- gets currentFontIndex ;;
  ret (item fs i).

(** *** [updateCountdown]; [now] is what [Date.now()] returns. *)
Definition updateCountdown (now : Z) : M globals bool :=
  target <- gets targetDate ;;
  let difference := target - now in
  if difference <=? 0 then
    assign_days 0 ;;
    assign_hours 0 ;;
    assign_minutes 0 ;;
    assign_seconds 0 ;;
    ret true
  else
    assign_days (JS.floor_div difference (1000 * 60 * 60 * 24)) ;;
    assign_hours (JS.floor_div (JS.rem difference (1000 * 60 * 60 * 24)) (1000 * 60 * 60)) ;;
    assign_minutes (JS.floor_div (JS.rem difference (1000 * 60 * 60)) (1000 * 60)) ;;
    assign_seconds (JS.floor_div (JS.rem difference (1000 * 60)) 1000) ;;
    pd <- gets prevDays ;; d <- gets days ;;
    ph <- gets prevHours ;; h <- gets hours ;;
    pm <- gets prevMinutes ;; m <- gets minutes ;;
    ps <- gets prevSeconds ;; sec <- gets seconds ;;
    hasChanged <-
      (if (pd !== d) || (ph !== h) || (pm !== m) || (ps !== sec) then
         when (pd !== d)
           (assign_animating Days true ;; setTimeout (ResetFlag Days) 200) ;;
         when (ph !== h)
           (assign_animating Hours true ;; setTimeout (ResetFlag Hours) 200) ;;
         when (pm !== m)
           (assign_animating Minutes true ;; setTimeout (ResetFlag Minutes) 200) ;;
         when (ps !== sec)
           (assign_animating Seconds true ;; setTimeout (ResetFlag Seconds) 200) ;;
         ret true
       else ret false) ;;
    when hasChanged
      (newFontName <- getNextFont ;;
       assign_currentFont newFontName) ;;
    d <- gets days ;; assign_prevDays d ;;
    h <- gets hours ;; assign_prevHours h ;;
    m <- gets minutes ;; assign_prevMinutes m ;;
    sec <- gets seconds ;; assign_prevSeconds sec ;;
    ret false.

(** *** [setup]; [t0] is the time value of [new Date()] in
    [getTargetDate], [t1] what [Date.now()] returns in [updateCountdown]. *)
Definition setup `{HostDate} (t0 t1 : Z) : M globals unit :=
  assign_targetDate (getTargetDate t0) ;;
  fs <- gets fonts ;;
  assign_currentFont (item fs 0) ;;
  _ <- updateCountdown t1 ;;
  ret tt.

(** *** [drawTimeUnit] and [drawSeparator].  Here the local variable is
    itself named [scale], so [scale(scale)] calls the number. *)
Definition drawTimeUnit (value : Z) (label : string) (isAnimating : bool) : drawing :=
  let scale := NumberValue (if isAnimating then 110 else 100) in
  let alpha := if isAnimating then 180 else 255 in
  match call scale with
  | Threw e => ([], Threw e)
  | Returned => ([mkPainted (Str.pad value None) alpha; mkPainted label 230], Returned)
  end.

Definition drawSeparator : drawing := ([mkPainted ":" 180], Returned).

(** *** [draw]: the throttled sampling, then the frame. *)
Definition draw (r : readings) : M globals drawing :=
  let now := r_millis r in
  last <- gets lastUpdateTime ;;
  when (updateInterval <=? now - last)
    (_ <- updateCountdown (r_sample r) ;;
     assign_lastUpdateTime now) ;;
  d <- gets days ;; h <- gets hours ;; m <- gets minutes ;; sec <- gets seconds ;;
  target <- gets targetDate ;;
  let isComplete :=
    (d === 0) && (h === 0) && (m === 0) && (sec === 0) && (target <=? r_render r) in
  a <- gets animatingElements ;;
  ret (sequence
    [ ([mkPainted "100-Day Countdown" 255], Returned);
      ((if isComplete then [mkPainted "Countdown complete" 255] else []), Returned);
      drawTimeUnit d "Days" (a_days a);
      drawSeparator;
      drawTimeUnit h "Hours" (a_hours a);
      drawSeparator;
      drawTimeUnit m "Minutes" (a_minutes a);
      drawSeparator;
      drawTimeUnit sec "Seconds" (a_seconds a) ]).

(** [windowResized] resizes the canvas and touches no variable. *)
Definition windowResized : M globals unit := ret tt.

Definition step (e : event) (s : globals) : globals :=
  match e with
  | Frame r => snd (draw r s)
  | Timer cb => snd (runCallback cb s)
  | Resized => snd (windowResized s)
  end.

(** The state after a sequence of host events. *)
Definition run (es : list event) (s : globals) : globals :=
  fold_left (fun s e => step e s) es s.

(** The countdown as it stands: [(days, hours, minutes, seconds)]. *)
Definition remaining (s : globals) : Z * Z * Z * Z :=
  (days s, hours s, minutes s, seconds s).

(** The total of the displayed fields, in seconds. *)
Definition totalSeconds (s : globals) : Z :=
  days s * 86400 + hours s * 3600 + minutes s * 60 + seconds s.

End FontSketch.

(** ** Vocabulary of the properties *)

(** The decomposition of a difference in milliseconds as the specification
    words it, with the mathematical floor quotient and [mod]:
    [(days, hours, minutes, seconds)]. *)
Definition floorDecomposition (diff : Z) : Z * Z * Z * Z :=
  (diff / 86400000,
   (diff mod 86400000) / 3600000,
   (diff mod 3600000) / 60000,
   (diff mod 60000) / 1000).

(** The total of four fields, in seconds. *)
Definition totalOf (r : Z * Z * Z * Z) : Z :=
  let '(d, h, m, sec) := r in d * 86400 + h * 3600 + m * 60 + sec.

(** No field is negative. *)
Definition nonNegative (r : Z * Z * Z * Z) : Prop :=
  let '(d, h, m, sec) := r in 0 <= d /\ 0 <= h /\ 0 <= m /\ 0 <= sec.

(** What a call of [updateCountdown] does to the pulse of one field when
    the field's value has [changed]: the flag is raised and its reset is
    scheduled 200 ms later. *)
Definition pulseFlag (f : field) (changed : bool) (a : animating) : animating :=
  if changed then set_flag f true a else a.

Definition pulseTimer (f : field) (changed : bool) (ts : list timeout) : list timeout :=
  if changed then (ResetFlag f, 200) :: ts else ts.

(** The index [getNextFont] moves to, from the current index [i] with [p]
    the previous one, in a list of [len] fonts. *)
Definition nextIndex (len i p : Z) : Z :=
  let i1 := JS.rem (i + 1) len in
  if (i1 === p) && (1 <? len) then JS.rem (i1 + 1) len else i1.

(** The calls to [setTimeout] that took the record from [before] to
    [after]. *)
Definition scheduled (before after : list timeout) : list timeout :=
  firstn (List.length after - List.length before) after.

(** The [Date.now()] readings of the frames of a sequence of events. *)
Definition samples (es : list event) : list Z :=
  flat_map (fun e => match e with Frame r => [r_sample r] | _ => [] end) es.

(** A clock that never runs backwards, read at [now] and then by the
    frames of [es]. *)
Definition clockMonotone (now : Z) (es : list event) : Prop :=
  Sorted Z.le (now :: samples es).

(** No two neighbours of a list are equal. *)
Fixpoint noConsecutiveRepeat {A : Type} (l : list A) : Prop :=
  match l with
  | x :: (y :: _) as rest => x <> y /\ noConsecutiveRepeat rest
  | _ => True
  end.

(** [k] zeros. *)
Fixpoint zeros (k : nat) : string :=
  match k with
  | O => EmptyString
  | S k' => String "0" (zeros k')
  end.

(** The globals of [src/sketch.js] when [setup] has assigned the target
    [T] and is about to call [updateCountdown]. *)
Definition sketchAt (T : Z) : Sketch.globals :=
  snd (Sketch.assign_targetDate T Sketch.initial).

(** The globals of [src/unnamed/part_000], declared with the font list
    [fs], when [setup] has assigned the target [T] and the first font and
    is about to call [updateCountdown]. *)
Definition fontSketchAt (fs : list string) (T : Z) : FontSketch.globals :=
  snd ((FontSketch.assign_targetDate T ;;
        FontSketch.assign_currentFont (FontSketch.item fs 0))
       (FontSketch.initialWith fs)).

(** In [src/sketch.js]: the value a field displays, and the value recorded
    for it by the last call that reached the change detection. *)
Definition shown (f : field) (s : Sketch.globals) : Z :=
  match f with
  | Days => Sketch.days s
  | Hours => Sketch.hours s
  | Minutes => Sketch.minutes s
  | Seconds => Sketch.seconds s
  end.

Definition recorded (f : field) (s : Sketch.globals) : Z :=
  match f with
  | Days => Sketch.prevDays s
  | Hours => Sketch.prevHours s
  | Minutes => Sketch.prevMinutes s
  | Seconds => Sketch.prevSeconds s
  end.

(** The eleven texts of the four digit groups, for the fields
    [(d, h, m, sec)]. *)
Definition digitGroups (r : Z * Z * Z * Z) : list string :=
  let '(d, h, m, sec) := r in
  [ Str.pad d None; "Days"; ":"; Str.pad h None; "Hours"; ":";
    Str.pad m None; "Minutes"; ":"; Str.pad sec None; "Seconds" ]%string.

(** *** The font rotation of [src/unnamed/part_000] *)

(** Whether the call of [updateCountdown] at [now] finds a changed field:
    the value of its local variable [hasChanged]; a call at or after the
    target returns before the test. *)
Definition hasChanged (now : Z) (s : FontSketch.globals) : bool :=
  (0 <? FontSketch.targetDate s - now) &&
  (let s' := snd (FontSketch.updateCountdown now s) in
   (FontSketch.prevDays s !== FontSketch.days s') ||
   (FontSketch.prevHours s !== FontSketch.hours s') ||
   (FontSketch.prevMinutes s !== FontSketch.minutes s') ||
   (FontSketch.prevSeconds s !== FontSketch.seconds s')).

(** A sequence of ticks, one call of [updateCountdown] per reading of
    [nows]: every one of them finds a changed field. *)
Fixpoint everyTickChanges (nows : list Z) (s : FontSketch.globals) : Prop :=
  match nows with
  | [] => True
  | now :: rest =>
      hasChanged now s = true /\
      everyTickChanges rest (snd (FontSketch.updateCountdown now s))
  end.

(** The font in use after each tick of the sequence. *)
Fixpoint fontsAlong (nows : list Z) (s : FontSketch.globals) : list (option string) :=
  match nows with
  | [] => []
  | now :: rest =>
      let s' := snd (FontSketch.updateCountdown now s) in
      FontSketch.currentFont s' :: fontsAlong rest s'
  end.

(** The indices [getNextFont] selects along a sequence of ticks, in
    order: a tick contributes the index it moves to when its call of
    [updateCountdown] reaches [getNextFont], and nothing otherwise. *)
Fixpoint selectionsAlong (nows : list Z) (s : FontSketch.globals) : list Z :=
  match nows with
  | [] => []
  | now :: rest =>
      let s' := snd (FontSketch.updateCountdown now s) in
      (if hasChanged now s then [FontSketch.currentFontIndex s'] else [])
      ++ selectionsAlong rest s'
  end.

(** Every entry of the list differs from the next one, the last from the
    first. *)
Definition neighboursDiffer (fs : list string) : Prop :=
  forall i : Z,
    0 <= i < Z.of_nat (List.length fs) ->
    FontSketch.item fs i
    <> FontSketch.item fs (JS.rem (i + 1) (Z.of_nat (List.length fs))).

(** What holds of the font variables from [setup] on: the index is inside
    the list, the previous index is the sentinel -1 or the index itself, and
    the font in use is the one at the index. *)
Definition fontInvariant (s : FontSketch.globals) : Prop :=
  0 <= FontSketch.currentFontIndex s < Z.of_nat (List.length (FontSketch.fonts s)) /\
  (FontSketch.previousFontIndex s = FontSketch.currentFontIndex s \/
   FontSketch.previousFontIndex s = -1) /\
  FontSketch.currentFont s
  = FontSketch.item (FontSketch.fonts s) (FontSketch.currentFontIndex s).

(** *** Further vocabulary *)

(** Every field is in the range of its unit. *)
Definition fieldsInRange (r : Z * Z * Z * Z) : Prop :=
  let '(d, h, m, sec) := r in
  0 <= d /\ 0 <= h < 24 /\ 0 <= m < 60 /\ 0 <= sec < 60.

(** The globals of [src/unnamed/part_000] after a sequence of ticks, one
    call of [updateCountdown] per reading of [nows]. *)
Definition afterTicks (nows : list Z) (s : FontSketch.globals) : FontSketch.globals :=
  fold_left (fun s now => snd (FontSketch.updateCountdown now s)) nows s.

(** The completion test of [draw], on the globals as they stand when the
    frame is drawn and the reading of [Date.now()] it makes. *)
Definition completeShown (target : Z) (fields : Z * Z * Z * Z) (render : Z) : bool :=
  let '(d, h, m, sec) := fields in
  (d === 0) && (h === 0) && (m === 0) && (sec === 0) && (target <=? render).

(** The two texts of one digit group: the padded value, faded while the
    field pulses, and the label. *)
Definition paintedGroup (value : Z) (label : string) (isAnimating : bool) : list painted :=
  [mkPainted (Str.pad value None) (if isAnimating then 180 else 255);
   mkPainted label 230].

(** The four digit groups and their separators, for the fields and the
    flags of the globals. *)
Definition paintedGroups (fields : Z * Z * Z * Z) (a : animating) : list painted :=
  let '(d, h, m, sec) := fields in
  paintedGroup d "Days" (a_days a) ++ [mkPainted ":" 180] ++
  paintedGroup h "Hours" (a_hours a) ++ [mkPainted ":" 180] ++
  paintedGroup m "Minutes" (a_minutes a) ++ [mkPainted ":" 180] ++
  paintedGroup sec "Seconds" (a_seconds a).

(** The number of events of a run that moved the watermark
    [lastUpdateTime], in each sketch. *)
Fixpoint watermarkMoves `{HostDate} (es : list event) (s : Sketch.globals) : Z :=
  match es with
  | [] => 0
  | e :: rest =>
      let s' := Sketch.step e s in
      (if Sketch.lastUpdateTime s' =? Sketch.lastUpdateTime s then 0 else 1)
      + watermarkMoves rest s'
  end.

Fixpoint fontWatermarkMoves (es : list event) (f : FontSketch.globals) : Z :=
  match es with
  | [] => 0
  | e :: rest =>
      let f' := FontSketch.step e f in
      (if FontSketch.lastUpdateTime f' =? FontSketch.lastUpdateTime f then 0 else 1)
      + fontWatermarkMoves rest f'
  end.

(** Leap years of the Gregorian calendar. *)
Definition isLeapYear (y : Z) : bool :=
  (y mod 4 =? 0) && (negb (y mod 100 =? 0) || (y mod 400 =? 0)).

(** *** The timeouts that are pending, for [src/sketch.js]

    The host keeps the callbacks given to [setTimeout] until it runs them,
    each one once.  A world is the globals together with the callbacks
    that have been set and have not run yet. *)
Record world : Type := mkWorld {
  w_globals : Sketch.globals;
  w_pending : list callback
}.

(** The host draws a frame, runs the pending callback at position [k], or
    resizes the window. *)
Inductive hostEvent : Type :=
| HostFrame (r : readings)
| HostFire (k : nat)
| HostResize.

Fixpoint removeAt {A : Type} (k : nat) (l : list A) : list A :=
  match l, k with
  | [], _ => []
  | _ :: rest, O => rest
  | x :: rest, S k' => x :: removeAt k' rest
  end.

(** The callbacks set between two states of the record of timers, oldest
    first. *)
Definition callbacksSet (before after : list timeout) : list callback :=
  rev (map fst (scheduled before after)).

Definition hostStep `{HostDate} (e : hostEvent) (w : world) : world :=
  match e with
  | HostFrame r =>
      let s' := Sketch.step (Frame r) (w_globals w) in
      mkWorld s' (w_pending w
                  ++ callbacksSet (Sketch.timers (w_globals w)) (Sketch.timers s'))
  | HostFire k =>
      match nth_error (w_pending w) k with
      | Some cb =>
          mkWorld (Sketch.step (Timer cb) (w_globals w)) (removeAt k (w_pending w))
      | None => w
      end
  | HostResize => mkWorld (Sketch.step Resized (w_globals w)) (w_pending w)
  end.

Definition hostRun `{HostDate} (es : list hostEvent) (w : world) : world :=
  fold_left (fun w e => hostStep e w) es w.

(** The world [setup] leaves. *)
Definition worldAfterSetup `{HostDate} (t0 t1 : Z) : world :=
  let s := snd (Sketch.setup t0 t1 Sketch.initial) in
  mkWorld s (callbacksSet (Sketch.timers Sketch.initial) (Sketch.timers s)).

(** Every flag that is up has its reset pending. *)
Definition pulsesCovered (w : world) : Prop :=
  forall f : field,
    flag f (Sketch.animatingElements (w_globals w)) = true ->
    In (ResetFlag f) (w_pending w).

(** The globals of [src/unnamed/part_000] without the font variables:
    the globals of [src/sketch.js]. *)
Definition withoutFonts (f : FontSketch.globals) : Sketch.globals :=
  Sketch.mkGlobals (FontSketch.targetDate f)
    (FontSketch.days f) (FontSketch.hours f) (FontSketch.minutes f)
    (FontSketch.seconds f)
    (FontSketch.prevDays f) (FontSketch.prevHours f)
    (FontSketch.prevMinutes f) (FontSketch.prevSeconds f)
    (FontSketch.animatingElements f) (FontSketch.lastUpdateTime f)
    (FontSketch.timers f).

(** * Properties *)

(** ** The operators *)

Lemma strict_neq_true (a b : Z) : (a !== b) = true <-> a <> b.
Proof.
  unfold JS.strict_neq. rewrite negb_true_iff, Z.eqb_neq. tauto.
Qed.

Lemma strict_neq_false (a b : Z) : (a !== b) = false <-> a = b.
Proof.
  unfold JS.strict_neq. rewrite negb_false_iff, Z.eqb_eq. tauto.
Qed.

(** On a positive dividend [%] is the mathematical [mod]. *)
Lemma rem_is_mod (a b : Z) : 0 <= a -> 0 < b -> JS.rem a b = a mod b.
Proof.
  intros Ha Hb. unfold JS.rem. apply Z.rem_mod_nonneg; lia.
Qed.

(** ** The arithmetic of the decomposition *)

Section Decomposition.

Variable diff : Z.
Hypothesis diff_pos : 0 < diff.

(** What the four assignments of [updateCountdown] compute is the floor
    decomposition. *)
Lemma source_decomposition :
  (JS.floor_div diff (1000 * 60 * 60 * 24),
   JS.floor_div (JS.rem diff (1000 * 60 * 60 * 24)) (1000 * 60 * 60),
   JS.floor_div (JS.rem diff (1000 * 60 * 60)) (1000 * 60),
   JS.floor_div (JS.rem diff (1000 * 60)) 1000)
  = floorDecomposition diff.
Proof.
  unfold floorDecomposition, JS.floor_div.
  rewrite !rem_is_mod by lia.
  reflexivity.
Qed.

Lemma decomposition_nonneg : nonNegative (floorDecomposition diff).
Proof.
  unfold nonNegative, floorDecomposition.
  repeat split; Z.to_euclidean_division_equations; lia.
Qed.

(** The fields lose nothing but the milliseconds below one second. *)
Lemma decomposition_total : totalOf (floorDecomposition diff) = diff / 1000.
Proof.
  unfold totalOf, floorDecomposition.
  Z.to_euclidean_division_equations; lia.
Qed.

Lemma decomposition_ranges :
  let '(_, h, m, sec) := floorDecomposition diff in
  h < 24 /\ m < 60 /\ sec < 60.
Proof.
  unfold floorDecomposition.
  repeat split; Z.to_euclidean_division_equations; lia.
Qed.

End Decomposition.

Lemma total_monotone (d1 d2 : Z) :
  0 < d2 -> d2 <= d1 ->
  totalOf (floorDecomposition d2) <= totalOf (floorDecomposition d1).
Proof.
  intros H2 H12.
  rewrite !decomposition_total.
  apply Z.div_le_mono; lia.
Qed.

(** ** Clocks *)

Lemma clockMonotone_later (now : Z) (es : list event) :
  clockMonotone now es -> Forall (fun t => now <= t) (samples es).
Proof.
  unfold clockMonotone. intros H.
  apply Sorted_extends in H.
  - exact H.
  - intros x y z Hxy Hyz. lia.
Qed.

Lemma samples_app (es1 es2 : list event) :
  samples (es1 ++ es2) = samples es1 ++ samples es2.
Proof.
  unfold samples. apply flat_map_app.
Qed.

(** ** [src/sketch.js] *)

Module SketchFacts.

Import Sketch.

(** Unfolds the monad down to records. *)
Ltac js_unfold :=
  cbv [when bind ret modify gets
       assign_targetDate assign_days assign_hours assign_minutes assign_seconds
       assign_prevDays assign_prevHours assign_prevMinutes assign_prevSeconds
       assign_animating assign_lastUpdateTime setTimeout];
  cbn [targetDate days hours minutes seconds
       prevDays prevHours prevMinutes prevSeconds
       animatingElements lastUpdateTime timers].

(** The branch taken once the target is reached. *)
Lemma sk_updateCountdown_complete (s : globals) (now : Z) :
  targetDate s - now <= 0 ->
  updateCountdown now s =
  (true,
   mkGlobals (targetDate s) 0 0 0 0
     (prevDays s) (prevHours s) (prevMinutes s) (prevSeconds s)
     (animatingElements s) (lastUpdateTime s) (timers s)).
Proof.
  intros Hle. unfold updateCountdown, bind at 1, gets at 1.
  destruct (Z.leb_spec (targetDate s - now) 0) as [_|Hgt]; [|lia].
  js_unfold. reflexivity.
Qed.

(** The branch taken before the target. *)
Lemma sk_updateCountdown_running (s : globals) (now : Z) :
  0 < targetDate s - now ->
  let difference := targetDate s - now in
  let d := JS.floor_div difference (1000 * 60 * 60 * 24) in
  let h := JS.floor_div (JS.rem difference (1000 * 60 * 60 * 24)) (1000 * 60 * 60) in
  let m := JS.floor_div (JS.rem difference (1000 * 60 * 60)) (1000 * 60) in
  let sec := JS.floor_div (JS.rem difference (1000 * 60)) 1000 in
  let cd := prevDays s !== d in
  let ch := prevHours s !== h in
  let cm := prevMinutes s !== m in
  let cs := prevSeconds s !== sec in
  updateCountdown now s =
  (false,
   mkGlobals (targetDate s) d h m sec d h m sec
     (pulseFlag Seconds cs (pulseFlag Minutes cm (pulseFlag Hours ch
        (pulseFlag Days cd (animatingElements s)))))
     (lastUpdateTime s)
     (pulseTimer Seconds cs (pulseTimer Minutes cm (pulseTimer Hours ch
        (pulseTimer Days cd (timers s)))))).
Proof.
  intros Hpos difference d h m sec cd ch cm cs.
  unfold updateCountdown, bind at 1, gets at 1.
  fold difference.
  destruct (Z.leb_spec difference 0) as [Hle|_];
    [unfold difference in Hle; lia|].
  fold d h m sec. subst cd ch cm cs.
  repeat (js_unfold;
          try match goal with
              | |- context [JS.strict_neq ?x ?y] => destruct (JS.strict_neq x y)
              end).
  all: reflexivity.
Qed.

Lemma sk_remaining_complete (s : globals) (now : Z) :
  targetDate s <= now ->
  fst (updateCountdown now s) = true /\
  remaining (snd (updateCountdown now s)) = (0, 0, 0, 0).
Proof.
  intros Hle. rewrite sk_updateCountdown_complete by lia.
  split; reflexivity.
Qed.

Lemma sk_remaining_running (s : globals) (now : Z) :
  now < targetDate s ->
  fst (updateCountdown now s) = false /\
  remaining (snd (updateCountdown now s)) = floorDecomposition (targetDate s - now).
Proof.
  intros Hlt. rewrite sk_updateCountdown_running by lia.
  split; [reflexivity|].
  unfold remaining. cbn [snd days hours minutes seconds].
  apply source_decomposition. lia.
Qed.

(** Nothing assigns [targetDate] after [setup]. *)
Lemma sk_updateCountdown_targetDate (s : globals) (now : Z) :
  targetDate (snd (updateCountdown now s)) = targetDate s.
Proof.
  destruct (Z.le_gt_cases (targetDate s - now) 0) as [Hle|Hgt].
  - rewrite sk_updateCountdown_complete by lia. reflexivity.
  - rewrite sk_updateCountdown_running by lia. reflexivity.
Qed.

(** The globals after one call of [draw]. *)
Lemma sk_draw_globals `{HostDate} (r : readings) (s : globals) :
  snd (draw r s) =
  if updateInterval <=? r_millis r - lastUpdateTime s
  then snd (assign_lastUpdateTime (r_millis r) (snd (updateCountdown (r_sample r) s)))
  else s.
Proof.
  unfold draw, bind at 1, gets at 1.
  destruct (updateInterval <=? r_millis r - lastUpdateTime s).
  - unfold when, bind at 1, bind at 1.
    destruct (updateCountdown (r_sample r) s) as [c s1].
    js_unfold. reflexivity.
  - js_unfold. reflexivity.
Qed.

Lemma sk_step_targetDate `{HostDate} (e : event) (s : globals) :
  targetDate (step e s) = targetDate s.
Proof.
  destruct e as [r|[f]|]; unfold step.
  - rewrite sk_draw_globals.
    destruct (updateInterval <=? r_millis r - lastUpdateTime s); [|reflexivity].
    js_unfold. cbn [snd targetDate]. apply sk_updateCountdown_targetDate.
  - reflexivity.
  - reflexivity.
Qed.

Lemma sk_run_targetDate `{HostDate} (es : list event) (s : globals) :
  targetDate (run es s) = targetDate s.
Proof.
  revert s. induction es as [|e es IH]; intros s.
  - reflexivity.
  - unfold run in *. cbn [fold_left]. rewrite IH. apply sk_step_targetDate.
Qed.

(** Once every later sample is at or after the target, zeroed fields stay
    zeroed, whatever the host does. *)
Lemma sk_step_zero `{HostDate} (e : event) (s : globals) :
  Forall (fun t => targetDate s <= t) (samples [e]) ->
  remaining s = (0, 0, 0, 0) ->
  remaining (step e s) = (0, 0, 0, 0).
Proof.
  intros Hlate Hzero.
  destruct e as [r|[f]|]; unfold step.
  - rewrite sk_draw_globals.
    destruct (updateInterval <=? r_millis r - lastUpdateTime s); [|exact Hzero].
    cbn in Hlate. apply Forall_inv in Hlate.
    rewrite sk_updateCountdown_complete by lia.
    reflexivity.
  - exact Hzero.
  - exact Hzero.
Qed.

Lemma sk_run_zero `{HostDate} (es : list event) (s : globals) :
  Forall (fun t => targetDate s <= t) (samples es) ->
  remaining s = (0, 0, 0, 0) ->
  remaining (run es s) = (0, 0, 0, 0).
Proof.
  revert s. induction es as [|e es IH]; intros s Hlate Hzero.
  - exact Hzero.
  - change (e :: es) with ([e] ++ es) in Hlate.
    rewrite samples_app in Hlate. apply Forall_app in Hlate as [He Hes].
    unfold run in *. cbn [fold_left]. apply IH.
    + rewrite sk_step_targetDate. exact Hes.
    + apply sk_step_zero; assumption.
Qed.

End SketchFacts.

(** ** [src/unnamed/part_000] *)

Module FontFacts.

Import FontSketch.

(** Unfolds the monad down to records. *)
Ltac js_unfold :=
  cbv [when bind ret modify gets
       assign_targetDate assign_currentFontIndex assign_previousFontIndex
       assign_currentFont
       assign_days assign_hours assign_minutes assign_seconds
       assign_prevDays assign_prevHours assign_prevMinutes assign_prevSeconds
       assign_animating assign_lastUpdateTime setTimeout];
  cbn [fonts targetDate currentFontIndex previousFontIndex currentFont
       days hours minutes seconds
       prevDays prevHours prevMinutes prevSeconds
       animatingElements lastUpdateTime timers].

(** [getNextFont] moves both indices to [nextIndex] and returns the font
    found there. *)
Lemma fs_getNextFont (s : globals) :
  let i := nextIndex (Z.of_nat (List.length (fonts s)))
                     (currentFontIndex s) (previousFontIndex s) in
  getNextFont s =
  (item (fonts s) i,
   mkGlobals (fonts s) (targetDate s) i i (currentFont s)
     (days s) (hours s) (minutes s) (seconds s)
     (prevDays s) (prevHours s) (prevMinutes s) (prevSeconds s)
     (animatingElements s) (lastUpdateTime s) (timers s)).
Proof.
  intros i. subst i. unfold getNextFont, nextIndex.
  js_unfold.
  destruct ((JS.rem (currentFontIndex s + 1) (Z.of_nat (List.length (fonts s)))
             === previousFontIndex s)
            && (1 <? Z.of_nat (List.length (fonts s))));
    reflexivity.
Qed.

(** The branch taken once the target is reached. *)
Lemma fs_updateCountdown_complete (s : globals) (now : Z) :
  targetDate s - now <= 0 ->
  updateCountdown now s =
  (true,
   mkGlobals (fonts s) (targetDate s)
     (currentFontIndex s) (previousFontIndex s) (currentFont s)
     0 0 0 0
     (prevDays s) (prevHours s) (prevMinutes s) (prevSeconds s)
     (animatingElements s) (lastUpdateTime s) (timers s)).
Proof.
  intros Hle. unfold updateCountdown, bind at 1, gets at 1.
  destruct (Z.leb_spec (targetDate s - now) 0) as [_|Hgt]; [|lia].
  js_unfold. reflexivity.
Qed.

(** The branch taken before the target. *)
Lemma fs_updateCountdown_running (s : globals) (now : Z) :
  0 < targetDate s - now ->
  let difference := targetDate s - now in
  let d := JS.floor_div difference (1000 * 60 * 60 * 24) in
  let h := JS.floor_div (JS.rem difference (1000 * 60 * 60 * 24)) (1000 * 60 * 60) in
  let m := JS.floor_div (JS.rem difference (1000 * 60 * 60)) (1000 * 60) in
  let sec := JS.floor_div (JS.rem difference (1000 * 60)) 1000 in
  let cd := prevDays s !== d in
  let ch := prevHours s !== h in
  let cm := prevMinutes s !== m in
  let cs := prevSeconds s !== sec in
  let hasChanged := cd || ch || cm || cs in
  let i := nextIndex (Z.of_nat (List.length (fonts s)))
                     (currentFontIndex s) (previousFontIndex s) in
  updateCountdown now s =
  (false,
   mkGlobals (fonts s) (targetDate s)
     (if hasChanged then i else currentFontIndex s)
     (if hasChanged then i else previousFontIndex s)
     (if hasChanged then item (fonts s) i else currentFont s)
     d h m sec d h m sec
     (pulseFlag Seconds cs (pulseFlag Minutes cm (pulseFlag Hours ch
        (pulseFlag Days cd (animatingElements s)))))
     (lastUpdateTime s)
     (pulseTimer Seconds cs (pulseTimer Minutes cm (pulseTimer Hours ch
        (pulseTimer Days cd (timers s)))))).
Proof.
  intros Hpos difference d h m sec cd ch cm cs hasChanged i.
  unfold updateCountdown, bind at 1, gets at 1.
  fold difference.
  destruct (Z.leb_spec difference 0) as [Hle|_];
    [unfold difference in Hle; lia|].
  fold d h m sec. subst hasChanged cd ch cm cs.
  js_unfold.
  destruct (prevDays s !== d), (prevHours s !== h),
           (prevMinutes s !== m), (prevSeconds s !== sec);
    cbn [orb]; js_unfold;
    try rewrite fs_getNextFont; js_unfold; reflexivity.
Qed.

Lemma fs_remaining_complete (s : globals) (now : Z) :
  targetDate s <= now ->
  fst (updateCountdown now s) = true /\
  remaining (snd (updateCountdown now s)) = (0, 0, 0, 0).
Proof.
  intros Hle. rewrite fs_updateCountdown_complete by lia.
  split; reflexivity.
Qed.

Lemma fs_remaining_running (s : globals) (now : Z) :
  now < targetDate s ->
  fst (updateCountdown now s) = false /\
  remaining (snd (updateCountdown now s)) = floorDecomposition (targetDate s - now).
Proof.
  intros Hlt. rewrite fs_updateCountdown_running by lia.
  split; [reflexivity|].
  unfold remaining. cbn [snd days hours minutes seconds].
  apply source_decomposition. lia.
Qed.

(** Nothing assigns [targetDate] or [fonts] after [setup]. *)
Lemma fs_updateCountdown_constants (s : globals) (now : Z) :
  targetDate (snd (updateCountdown now s)) = targetDate s /\
  fonts (snd (updateCountdown now s)) = fonts s.
Proof.
  destruct (Z.le_gt_cases (targetDate s - now) 0) as [Hle|Hgt].
  - rewrite fs_updateCountdown_complete by lia. split; reflexivity.
  - rewrite fs_updateCountdown_running by lia. split; reflexivity.
Qed.

(** The globals after one call of [draw], whether or not the drawing
    runs to its end. *)
Lemma fs_draw_globals (r : readings) (s : globals) :
  snd (draw r s) =
  if updateInterval <=? r_millis r - lastUpdateTime s
  then snd (assign_lastUpdateTime (r_millis r) (snd (updateCountdown (r_sample r) s)))
  else s.
Proof.
  unfold draw, bind at 1, gets at 1.
  destruct (updateInterval <=? r_millis r - lastUpdateTime s).
  - unfold when, bind at 1, bind at 1.
    destruct (updateCountdown (r_sample r) s) as [c s1].
    js_unfold. reflexivity.
  - js_unfold. reflexivity.
Qed.

Lemma fs_step_constants (e : event) (s : globals) :
  targetDate (step e s) = targetDate s /\ fonts (step e s) = fonts s.
Proof.
  destruct e as [r|[f]|]; unfold step.
  - rewrite fs_draw_globals.
    destruct (updateInterval <=? r_millis r - lastUpdateTime s);
      [|split; reflexivity].
    js_unfold. cbn [snd targetDate fonts]. apply fs_updateCountdown_constants.
  - split; reflexivity.
  - split; reflexivity.
Qed.

Lemma fs_run_constants (es : list event) (s : globals) :
  targetDate (run es s) = targetDate s /\ fonts (run es s) = fonts s.
Proof.
  revert s. induction es as [|e es IH]; intros s.
  - split; reflexivity.
  - unfold run in *. cbn [fold_left].
    destruct (IH (step e s)) as [IHt IHf].
    destruct (fs_step_constants e s) as [Ht Hf].
    rewrite IHt, IHf. split; assumption.
Qed.

Lemma fs_step_zero (e : event) (s : globals) :
  Forall (fun t => targetDate s <= t) (samples [e]) ->
  remaining s = (0, 0, 0, 0) ->
  remaining (step e s) = (0, 0, 0, 0).
Proof.
  intros Hlate Hzero.
  destruct e as [r|[f]|]; unfold step.
  - rewrite fs_draw_globals.
    destruct (updateInterval <=? r_millis r - lastUpdateTime s); [|exact Hzero].
    cbn in Hlate. apply Forall_inv in Hlate.
    rewrite fs_updateCountdown_complete by lia.
    reflexivity.
  - exact Hzero.
  - exact Hzero.
Qed.

Lemma fs_run_zero (es : list event) (s : globals) :
  Forall (fun t => targetDate s <= t) (samples es) ->
  remaining s = (0, 0, 0, 0) ->
  remaining (run es s) = (0, 0, 0, 0).
Proof.
  revert s. induction es as [|e es IH]; intros s Hlate Hzero.
  - exact Hzero.
  - change (e :: es) with ([e] ++ es) in Hlate.
    rewrite samples_app in Hlate. apply Forall_app in Hlate as [He Hes].
    unfold run in *. cbn [fold_left]. apply IH.
    + destruct (fs_step_constants e s) as [Ht _]. rewrite Ht. exact Hes.
    + apply fs_step_zero; assumption.
Qed.

End FontFacts.

(** * The properties of the specification *)

(** ** The decomposition before the target *)

(** C1.  For every sampling instant [now] strictly before the target,
    [updateCountdown] (in both sketches) sets days, hours, minutes and
    seconds to the floor decomposition of [diff = target - now]; so no field
    is negative, and the total of the fields in seconds lies between
    [floor(diff/1000) - 1] and [floor(diff/1000)]. *)
Theorem C1_floor_decomposition
    (target now : Z) (s : Sketch.globals) (f : FontSketch.globals) :
  Sketch.targetDate s = target ->
  FontSketch.targetDate f = target ->
  now < target ->
  let diff := target - now in
  let r1 := Sketch.remaining (snd (Sketch.updateCountdown now s)) in
  let r2 := FontSketch.remaining (snd (FontSketch.updateCountdown now f)) in
  (r1 = floorDecomposition diff /\ nonNegative r1 /\
   totalOf r1 <= diff / 1000 <= totalOf r1 + 1) /\
  (r2 = floorDecomposition diff /\ nonNegative r2 /\
   totalOf r2 <= diff / 1000 <= totalOf r2 + 1).
Proof.
  intros Hs Hf Hlt diff r1 r2.
  assert (Hpos : 0 < diff) by (unfold diff; lia).
  assert (H1 : r1 = floorDecomposition diff).
  { unfold r1, diff. rewrite <- Hs.
    apply SketchFacts.sk_remaining_running. lia. }
  assert (H2 : r2 = floorDecomposition diff).
  { unfold r2, diff. rewrite <- Hf.
    apply FontFacts.fs_remaining_running. lia. }
  rewrite H1, H2.
  pose proof (decomposition_nonneg diff Hpos) as Hnn.
  pose proof (decomposition_total diff) as Htot.
  split; (split; [reflexivity | split; [exact Hnn | lia]]).
Qed.

Lemma C1_floor_decomposition_witness :
  Sketch.remaining (snd (Sketch.updateCountdown 1744329599000 (sketchAt 1744329600000)))
  = floorDecomposition 1000.
Proof.
  refine (proj1 (proj1 (C1_floor_decomposition 1744329600000 1744329599000
            (sketchAt 1744329600000)
            (fontSketchAt FontSketch.fontList 1744329600000) _ _ _))).
  - reflexivity.
  - reflexivity.
  - reflexivity.
Defined.

(** ** Reaching the target *)

(** C2.  For every sampling instant [now] at or after the target,
    [updateCountdown] (in both sketches) zeroes the four fields and reports
    completion; and with a clock that never runs backwards the state is
    sticky: whatever frames, timer callbacks and resizes [es] the host
    runs afterwards the fields stay zero, and any later sample zeroes them
    and reports completion again. *)
Theorem C2_complete_is_sticky `{HostDate}
    (s : Sketch.globals) (f : FontSketch.globals)
    (now later : Z) (es : list event) :
  Sketch.targetDate s <= now ->
  FontSketch.targetDate f <= now ->
  clockMonotone now es ->
  now <= later ->
  let s1 := snd (Sketch.updateCountdown now s) in
  let f1 := snd (FontSketch.updateCountdown now f) in
  (fst (Sketch.updateCountdown now s) = true /\
   Sketch.remaining s1 = (0, 0, 0, 0) /\
   Sketch.remaining (Sketch.run es s1) = (0, 0, 0, 0) /\
   fst (Sketch.updateCountdown later (Sketch.run es s1)) = true /\
   Sketch.remaining (snd (Sketch.updateCountdown later (Sketch.run es s1)))
     = (0, 0, 0, 0)) /\
  (fst (FontSketch.updateCountdown now f) = true /\
   FontSketch.remaining f1 = (0, 0, 0, 0) /\
   FontSketch.remaining (FontSketch.run es f1) = (0, 0, 0, 0) /\
   fst (FontSketch.updateCountdown later (FontSketch.run es f1)) = true /\
   FontSketch.remaining (snd (FontSketch.updateCountdown later (FontSketch.run es f1)))
     = (0, 0, 0, 0)).
Proof.
  intros Hs Hf Hclock Hlater s1 f1.
  apply clockMonotone_later in Hclock.
  split.
  - destruct (SketchFacts.sk_remaining_complete s now Hs) as [Hc Hz].
    assert (Ht : Sketch.targetDate s1 = Sketch.targetDate s)
      by apply SketchFacts.sk_updateCountdown_targetDate.
    assert (Hrun : Sketch.remaining (Sketch.run es s1) = (0, 0, 0, 0)).
    { apply SketchFacts.sk_run_zero; [|exact Hz].
      rewrite Ht. eapply Forall_impl; [|exact Hclock].
      cbn beta. intros t Hle. lia. }
    repeat split; try assumption;
      apply SketchFacts.sk_remaining_complete;
      rewrite SketchFacts.sk_run_targetDate, Ht; lia.
  - destruct (FontFacts.fs_remaining_complete f now Hf) as [Hc Hz].
    assert (Ht : FontSketch.targetDate f1 = FontSketch.targetDate f)
      by apply FontFacts.fs_updateCountdown_constants.
    assert (Hrun : FontSketch.remaining (FontSketch.run es f1) = (0, 0, 0, 0)).
    { apply FontFacts.fs_run_zero; [|exact Hz].
      rewrite Ht. eapply Forall_impl; [|exact Hclock].
      cbn beta. intros t Hle. lia. }
    repeat split; try assumption;
      apply FontFacts.fs_remaining_complete;
      rewrite (proj1 (FontFacts.fs_run_constants es f1)), Ht; lia.
Qed.

Lemma C2_complete_is_sticky_witness :
  let es := [Frame (mkReadings 300 1500 1500); Timer (ResetFlag Seconds);
             Resized; Frame (mkReadings 320 1520 1520)] in
  let s1 := snd (Sketch.updateCountdown 1000 (sketchAt 1000)) in
  Sketch.remaining (@Sketch.run Gregorian.utc es s1) = (0, 0, 0, 0) /\
  fst (Sketch.updateCountdown 2000 (@Sketch.run Gregorian.utc es s1)) = true.
Proof.
  intros es s1.
  assert (Hclock : clockMonotone 1000 es).
  { unfold clockMonotone, es. cbn [samples flat_map app r_sample].
    repeat constructor; discriminate. }
  pose proof (@C2_complete_is_sticky Gregorian.utc (sketchAt 1000)
                (fontSketchAt FontSketch.fontList 1000) 1000 2000 es
                ltac:(discriminate) ltac:(discriminate) Hclock ltac:(discriminate))
    as [[_ [_ [Hrun [Hc _]]]] _].
  split; [exact Hrun | exact Hc].
Defined.

(** ** Monotonicity *)

(** C4.  For two sampling instants [now1 < now2], both strictly before the
    target, the total of the fields sampled at [now2] is at most the total
    of the fields sampled at [now1] (in both sketches, and whatever the
    globals held before each sample). *)
Theorem C4_total_monotone
    (target now1 now2 : Z) (s1 s2 : Sketch.globals) (f1 f2 : FontSketch.globals) :
  Sketch.targetDate s1 = target -> Sketch.targetDate s2 = target ->
  FontSketch.targetDate f1 = target -> FontSketch.targetDate f2 = target ->
  now1 < now2 -> now2 < target ->
  Sketch.totalSeconds (snd (Sketch.updateCountdown now2 s2))
    <= Sketch.totalSeconds (snd (Sketch.updateCountdown now1 s1)) /\
  FontSketch.totalSeconds (snd (FontSketch.updateCountdown now2 f2))
    <= FontSketch.totalSeconds (snd (FontSketch.updateCountdown now1 f1)).
Proof.
  intros Hs1 Hs2 Hf1 Hf2 H12 H2.
  split.
  - change (totalOf (Sketch.remaining (snd (Sketch.updateCountdown now2 s2)))
            <= totalOf (Sketch.remaining (snd (Sketch.updateCountdown now1 s1)))).
    rewrite (proj2 (SketchFacts.sk_remaining_running s2 now2 ltac:(lia))).
    rewrite (proj2 (SketchFacts.sk_remaining_running s1 now1 ltac:(lia))).
    apply total_monotone; lia.
  - change (totalOf (FontSketch.remaining (snd (FontSketch.updateCountdown now2 f2)))
            <= totalOf (FontSketch.remaining (snd (FontSketch.updateCountdown now1 f1)))).
    rewrite (proj2 (FontFacts.fs_remaining_running f2 now2 ltac:(lia))).
    rewrite (proj2 (FontFacts.fs_remaining_running f1 now1 ltac:(lia))).
    apply total_monotone; lia.
Qed.

Lemma C4_total_monotone_witness :
  Sketch.totalSeconds (snd (Sketch.updateCountdown 2500
     (snd (Sketch.updateCountdown 1000 (sketchAt 90061000)))))
  <= Sketch.totalSeconds (snd (Sketch.updateCountdown 1000 (sketchAt 90061000))).
Proof.
  refine (proj1 (C4_total_monotone 90061000 1000 2500
            (sketchAt 90061000)
            (snd (Sketch.updateCountdown 1000 (sketchAt 90061000)))
            (fontSketchAt FontSketch.fontList 90061000)
            (fontSketchAt FontSketch.fontList 90061000) _ _ _ _ _ _));
    reflexivity.
Defined.

(** ** The early return *)

(** C9.  When [updateCountdown] is called with [target - now <= 0] it
    zeroes the four displayed fields and returns, leaving every other
    global as it was: the previous values, the animation flags, the
    scheduled timers, the sampling watermark and, in the font-cycling
    sketch, the font indices and the current font. *)
Theorem C9_early_return_frame
    (now : Z) (s : Sketch.globals) (f : FontSketch.globals) :
  Sketch.targetDate s - now <= 0 ->
  FontSketch.targetDate f - now <= 0 ->
  Sketch.updateCountdown now s =
    (true,
     Sketch.mkGlobals (Sketch.targetDate s) 0 0 0 0
       (Sketch.prevDays s) (Sketch.prevHours s)
       (Sketch.prevMinutes s) (Sketch.prevSeconds s)
       (Sketch.animatingElements s) (Sketch.lastUpdateTime s) (Sketch.timers s))
  /\
  FontSketch.updateCountdown now f =
    (true,
     FontSketch.mkGlobals (FontSketch.fonts f) (FontSketch.targetDate f)
       (FontSketch.currentFontIndex f) (FontSketch.previousFontIndex f)
       (FontSketch.currentFont f) 0 0 0 0
       (FontSketch.prevDays f) (FontSketch.prevHours f)
       (FontSketch.prevMinutes f) (FontSketch.prevSeconds f)
       (FontSketch.animatingElements f) (FontSketch.lastUpdateTime f)
       (FontSketch.timers f)).
Proof.
  intros Hs Hf. split.
  - apply SketchFacts.sk_updateCountdown_complete. exact Hs.
  - apply FontFacts.fs_updateCountdown_complete. exact Hf.
Qed.

(** The tick that first reaches zero: one second before the target every
    field pulses and the font advances; at the target the display goes from
    [0:0:0:1] to [0:0:0:0] while the recorded previous second stays 1, no
    flag is raised, no timer is scheduled and the font stays. *)
Lemma C9_early_return_frame_witness :
  let before := snd (FontSketch.updateCountdown 9000
                       (fontSketchAt FontSketch.fontList 10000)) in
  let after := snd (FontSketch.updateCountdown 10000 before) in
  FontSketch.remaining before = (0, 0, 0, 1) /\
  FontSketch.remaining after = (0, 0, 0, 0) /\
  FontSketch.prevSeconds after = 1 /\
  FontSketch.animatingElements after = FontSketch.animatingElements before /\
  FontSketch.timers after = FontSketch.timers before /\
  FontSketch.currentFont after = FontSketch.currentFont before.
Proof.
  intros before after.
  assert (Hs : Sketch.targetDate (snd (Sketch.updateCountdown 9000 (sketchAt 10000)))
               - 10000 <= 0) by (vm_compute; discriminate).
  assert (Hf : FontSketch.targetDate before - 10000 <= 0)
    by (vm_compute; discriminate).
  pose proof (proj2 (C9_early_return_frame 10000 _ before Hs Hf)) as Heq.
  unfold after. rewrite Heq. cbn [snd].
  do 5 (split; [vm_compute; reflexivity|]).
  vm_compute; reflexivity.
Defined.

(** ** The two sketches agree on the countdown *)

(** C10.  For the same target and the same sampling instant the two
    sketches compute the same days, hours, minutes and seconds and the same
    completion result, whatever else their globals hold. *)
Theorem C10_variants_agree
    (now : Z) (s : Sketch.globals) (f : FontSketch.globals) :
  Sketch.targetDate s = FontSketch.targetDate f ->
  Sketch.remaining (snd (Sketch.updateCountdown now s))
    = FontSketch.remaining (snd (FontSketch.updateCountdown now f)) /\
  fst (Sketch.updateCountdown now s) = fst (FontSketch.updateCountdown now f).
Proof.
  intros Ht.
  destruct (Z.le_gt_cases (Sketch.targetDate s) now) as [Hle|Hgt].
  - destruct (SketchFacts.sk_remaining_complete s now Hle) as [Hc1 Hr1].
    destruct (FontFacts.fs_remaining_complete f now ltac:(lia)) as [Hc2 Hr2].
    rewrite Hc1, Hc2, Hr1, Hr2. split; reflexivity.
  - destruct (SketchFacts.sk_remaining_running s now ltac:(lia)) as [Hc1 Hr1].
    destruct (FontFacts.fs_remaining_running f now ltac:(lia)) as [Hc2 Hr2].
    rewrite Hc1, Hc2, Hr1, Hr2, Ht. split; reflexivity.
Qed.

Lemma C10_variants_agree_witness :
  Sketch.remaining (snd (Sketch.updateCountdown 1000 (sketchAt 90061000)))
  = FontSketch.remaining
      (snd (FontSketch.updateCountdown 1000 (fontSketchAt FontSketch.fontList 90061000))).
Proof.
  refine (proj1 (C10_variants_agree 1000 (sketchAt 90061000)
                   (fontSketchAt FontSketch.fontList 90061000) _)).
  reflexivity.
Defined.

(** ** The sampling throttle *)

(** What a frame of [src/sketch.js] shows: a title, the completion message
    when due, then the digit groups of the fields as they stand after the
    sampling step of that frame. *)
Lemma sk_draw_shows `{HostDate} (r : readings) (s : Sketch.globals) :
  let s' := snd (Sketch.draw r s) in
  exists complete : bool,
    map p_text (fst (fst (Sketch.draw r s)))
    = (("Countdown to April 11, " ++ Str.String_ (getFullYear (Sketch.targetDate s')))
         :: (if complete then ["Countdown complete"] else []))%string
      ++ digitGroups (Sketch.remaining s') /\
    snd (fst (Sketch.draw r s)) = Returned.
Proof.
  unfold Sketch.draw. cbv [bind gets].
  destruct (Sketch.updateInterval <=? r_millis r - Sketch.lastUpdateTime s);
    cbv [when bind ret];
    [destruct (Sketch.updateCountdown (r_sample r) s) as [c s1]|];
    SketchFacts.js_unfold; cbn [fst snd];
    (destruct (_ && _); [exists true | exists false]; split; reflexivity).
Qed.

(** In [src/unnamed/part_000] the frame does not get that far: the first
    [drawTimeUnit] throws, after the globals have been updated. *)
Lemma fs_draw_throws (r : readings) (f : FontSketch.globals) :
  snd (fst (FontSketch.draw r f)) = Threw "TypeError".
Proof.
  unfold FontSketch.draw. cbv [bind gets].
  destruct (FontSketch.updateInterval <=? r_millis r - FontSketch.lastUpdateTime f);
    cbv [when bind ret];
    [destruct (FontSketch.updateCountdown (r_sample r) f) as [c f1]|];
    FontFacts.js_unfold; cbn [fst snd];
    (destruct (_ && _); reflexivity).
Qed.

(** ** Change detection *)

Lemma scheduled_app (old new : list timeout) : scheduled old (new ++ old) = new.
Proof.
  unfold scheduled. rewrite length_app, Nat.add_sub.
  rewrite firstn_app, Nat.sub_diag, firstn_all. cbn [firstn].
  apply app_nil_r.
Qed.

(** The timers one call schedules. *)
Lemma scheduled_pulses (ts : list timeout) (cd ch cm cs : bool) :
  scheduled ts
    (pulseTimer Seconds cs (pulseTimer Minutes cm (pulseTimer Hours ch
       (pulseTimer Days cd ts))))
  = pulseTimer Seconds cs (pulseTimer Minutes cm (pulseTimer Hours ch
       (pulseTimer Days cd []))).
Proof.
  destruct cd, ch, cm, cs; cbn [pulseTimer];
    match goal with
    | |- scheduled _ _ = ?new => exact (scheduled_app ts new)
    end.
Qed.

Lemma pulses_flag (f : field) (a : animating) (cd ch cm cs : bool) :
  let changed := match f with Days => cd | Hours => ch | Minutes => cm | Seconds => cs end in
  flag f (pulseFlag Seconds cs (pulseFlag Minutes cm (pulseFlag Hours ch
            (pulseFlag Days cd a))))
  = changed || flag f a.
Proof.
  destruct f, cd, ch, cm, cs; reflexivity.
Qed.

Lemma pulses_timer (f : field) (cd ch cm cs : bool) :
  let changed := match f with Days => cd | Hours => ch | Minutes => cm | Seconds => cs end in
  In (ResetFlag f, 200)
     (pulseTimer Seconds cs (pulseTimer Minutes cm (pulseTimer Hours ch
        (pulseTimer Days cd []))))
  <-> changed = true.
Proof.
  destruct f, cd, ch, cm, cs; cbn [pulseTimer In];
    intuition (discriminate || congruence).
Qed.

(** C3, as the code has it.  For every call of [updateCountdown] made
    strictly before the target, and for each field on its own: the field's
    flag is raised, and its reset scheduled, exactly when the newly computed
    value differs from the value recorded for the field; otherwise the flag
    is left as it was.  The call then records the new value.  With the
    sentinel -1 recorded, as on the first call, the field registers as
    changed. *)
Theorem C3_change_detection (s : Sketch.globals) (now : Z) (f : field) :
  now < Sketch.targetDate s ->
  let s' := snd (Sketch.updateCountdown now s) in
  let new := scheduled (Sketch.timers s) (Sketch.timers s') in
  (shown f s' <> recorded f s ->
     flag f (Sketch.animatingElements s') = true /\ In (ResetFlag f, 200) new) /\
  (shown f s' = recorded f s ->
     flag f (Sketch.animatingElements s') = flag f (Sketch.animatingElements s) /\
     ~ In (ResetFlag f, 200) new) /\
  recorded f s' = shown f s' /\
  (recorded f s = -1 ->
     flag f (Sketch.animatingElements s') = true /\ In (ResetFlag f, 200) new).
Proof.
  intros Hlt s' new.
  assert (Hpos : 0 < Sketch.targetDate s - now) by lia.
  pose proof (SketchFacts.sk_remaining_running s now Hlt) as [_ Hrem].
  pose proof (decomposition_nonneg _ Hpos) as Hnn.
  rewrite <- Hrem in Hnn. fold s' in Hnn.
  pose proof (SketchFacts.sk_updateCountdown_running s now Hpos) as Heq.
  cbv zeta in Heq.
  assert (Hflag : flag f (Sketch.animatingElements s')
                  = (recorded f s !== shown f s') || flag f (Sketch.animatingElements s)).
  { unfold s'. rewrite Heq. cbn [snd Sketch.animatingElements].
    rewrite pulses_flag. destruct f; reflexivity. }
  assert (Htimer : In (ResetFlag f, 200) new <-> (recorded f s !== shown f s') = true).
  { unfold new, s'. rewrite Heq. cbn [snd Sketch.timers].
    rewrite scheduled_pulses, pulses_timer. destruct f; reflexivity. }
  assert (Hrec : recorded f s' = shown f s').
  { unfold s'. rewrite Heq. destruct f; reflexivity. }
  assert (Hchanged : shown f s' <> recorded f s ->
            flag f (Sketch.animatingElements s') = true /\ In (ResetFlag f, 200) new).
  { intros Hne. rewrite Hflag, Htimer.
    assert (Hb : (recorded f s !== shown f s') = true)
      by (apply strict_neq_true; congruence).
    rewrite Hb. split; reflexivity. }
  split; [exact Hchanged|].
  split.
  - intros Hsame. rewrite Hflag, Htimer.
    assert (Hb : (recorded f s !== shown f s') = false)
      by (apply strict_neq_false; congruence).
    rewrite Hb. split; [reflexivity | discriminate].
  - split; [exact Hrec|].
    intros Hsentinel. apply Hchanged.
    unfold nonNegative, Sketch.remaining in Hnn.
    destruct f; cbn [shown recorded] in *; lia.
Qed.

(** The first call of a countdown to a target 1 s away: every field
    registers as changed. *)
Lemma C3_change_detection_witness :
  let s' := snd (Sketch.updateCountdown 9000 (sketchAt 10000)) in
  flag Days (Sketch.animatingElements s') = true /\
  In (ResetFlag Days, 200) (scheduled (Sketch.timers (sketchAt 10000)) (Sketch.timers s')).
Proof.
  intros s'.
  refine (proj2 (proj2 (proj2 (C3_change_detection (sketchAt 10000) 9000 Days _))) _).
  - vm_compute. reflexivity.
  - vm_compute. reflexivity.
Defined.

(** C3 as stated fails on the call that reaches the target.  One second
    before the target the seconds field is 1 and 1 is recorded for it; the
    pulse of that sample has ended (its callback has run) when the next
    sample, at the target, sets the field to 0: the new value differs from
    the recorded one, yet no flag is raised and no reset is scheduled. *)
Lemma C3_counterexample :
  let s0 := snd (Sketch.updateCountdown 9000 (sketchAt 10000)) in
  let s1 := snd (Sketch.runCallback (ResetFlag Seconds) s0) in
  let s2 := snd (Sketch.updateCountdown 10000 s1) in
  shown Seconds s2 <> recorded Seconds s1 /\
  flag Seconds (Sketch.animatingElements s2) = false /\
  scheduled (Sketch.timers s1) (Sketch.timers s2) = [].
Proof.
  vm_compute. split; [discriminate | split; reflexivity].
Qed.

(** ** The target *)

Lemma sk_setup_targetDate `{HostDate} (t0 t1 : Z) (s : Sketch.globals) :
  Sketch.targetDate (snd (Sketch.setup t0 t1 s)) = Sketch.getTargetDate t0.
Proof.
  unfold Sketch.setup. unfold bind at 1, bind at 1.
  cbv [Sketch.assign_targetDate modify].
  destruct (Sketch.updateCountdown t1 _) as [c s1] eqn:Hcall.
  cbv [ret]. cbn [snd].
  change s1 with (snd (c, s1)). rewrite <- Hcall.
  rewrite SketchFacts.sk_updateCountdown_targetDate. reflexivity.
Qed.

(** C6.  [getTargetDate], evaluated by [setup] at the startup instant
    [t0], returns local midnight of April 11 of the current year, or, when
    that instant is already in the past at [t0], local midnight of April 11
    of the next year; [setup] stores it in [targetDate], and no frame, timer
    callback or resize changes it afterwards. *)
Theorem C6_target_resolution `{HostDate} (t0 t1 : Z) (es : list event) :
  let april11ThisYear := newDate (getFullYear t0) 3 11 in
  let april11NextYear := newDate (getFullYear t0 + 1) 3 11 in
  (t0 <= april11ThisYear -> Sketch.getTargetDate t0 = april11ThisYear) /\
  (april11ThisYear < t0 -> Sketch.getTargetDate t0 = april11NextYear) /\
  Sketch.targetDate (snd (Sketch.setup t0 t1 Sketch.initial))
    = Sketch.getTargetDate t0 /\
  Sketch.targetDate (Sketch.run es (snd (Sketch.setup t0 t1 Sketch.initial)))
    = Sketch.getTargetDate t0.
Proof.
  intros april11ThisYear april11NextYear.
  repeat apply conj.
  - intros Hle. unfold Sketch.getTargetDate. fold april11ThisYear.
    destruct (Z.ltb_spec april11ThisYear t0); [lia | reflexivity].
  - intros Hlt. unfold Sketch.getTargetDate. fold april11ThisYear.
    destruct (Z.ltb_spec april11ThisYear t0); [reflexivity | lia].
  - apply sk_setup_targetDate.
  - rewrite SketchFacts.sk_run_targetDate. apply sk_setup_targetDate.
Qed.

(** On the UTC host: one millisecond after midnight of 11 April 2025 the
    target is midnight of 11 April 2026, and a frame leaves it there. *)
Lemma C6_target_resolution_witness :
  Sketch.targetDate
    (@Sketch.run Gregorian.utc [Frame (mkReadings 300 1744329600300 1744329600300)]
       (snd (@Sketch.setup Gregorian.utc 1744329600001 1744329600002 Sketch.initial)))
  = 1775865600000.
Proof.
  pose proof (@C6_target_resolution Gregorian.utc 1744329600001 1744329600002
                [Frame (mkReadings 300 1744329600300 1744329600300)])
    as [_ [Hnext [_ Hrun]]].
  rewrite Hrun. rewrite Hnext.
  - vm_compute. reflexivity.
  - vm_compute. reflexivity.
Defined.

(** *** The UTC host *)

Section UTCHost.

Import Gregorian.

(** 11 April of year [y] is day 11 of month 4 of year [y]. *)
Lemma april11_civil (y : Z) :
  civil_from_days (days_from_civil y 4 11) = (y, 4, 11).
Proof.
  unfold days_from_civil.
  change (4 <=? 2) with false. change (2 <? 4) with true. cbv iota.
  change ((153 * (4 - 3) + 2) / 5 + 11 - 1) with 41.
  set (era := y / 400).
  set (yoe := y - era * 400).
  assert (Hyoe : 0 <= yoe < 400)
    by (unfold yoe, era; Z.to_euclidean_division_equations; lia).
  set (doe := yoe * 365 + yoe / 4 - yoe / 100 + 41).
  assert (Hdoe : 0 <= doe < 146097)
    by (unfold doe; Z.to_euclidean_division_equations; lia).
  unfold civil_from_days.
  replace (era * 146097 + doe - 719468 + 719468) with (doe + era * 146097) by lia.
  rewrite Z.div_add by lia. rewrite (Z.div_small doe) by lia.
  replace (doe + era * 146097 - (0 + era) * 146097) with doe by lia.
  assert (Hy : (doe - doe / 1460 + doe / 36524 - doe / 146096) / 365 = yoe)
    by (unfold doe; Z.to_euclidean_division_equations; lia).
  rewrite Hy. fold doe.
  replace (doe - (365 * yoe + yoe / 4 - yoe / 100)) with 41 by (unfold doe; lia).
  change ((5 * 41 + 2) / 153) with 1.
  cbn.
  replace (yoe + era * 400) with y by (unfold yoe; lia).
  reflexivity.
Qed.

(** [new Date(y, 3, 11, 0, 0, 0, 0)] is midnight of 11 April of [y]. *)
Lemma utc_april11 (y : Z) :
  civil_from_days (newDate y 3 11 / msPerDay) = (y, 4, 11) /\
  newDate y 3 11 mod msPerDay = 0.
Proof.
  cbn [newDate utc]. unfold makeDay.
  change (3 / 12) with 0. change (3 mod 12 + 1) with 4.
  rewrite Z.add_0_r.
  split.
  - rewrite Z.div_mul by (unfold msPerDay; lia). apply april11_civil.
  - apply Z.mod_mul. unfold msPerDay; lia.
Qed.

(** Every day of a year comes before 11 April of the next year. *)
Lemma year_ends_before_next_april (z : Z) :
  let '(y, _, _) := civil_from_days z in
  z < days_from_civil (y + 1) 4 11.
Proof.
  unfold civil_from_days, days_from_civil.
  change (4 <=? 2) with false. change (2 <? 4) with true. cbv iota.
  change ((153 * (4 - 3) + 2) / 5 + 11 - 1) with 41.
  set (z' := z + 719468).
  set (era := z' / 146097).
  set (doe := z' - era * 146097).
  assert (Hdoe : 0 <= doe < 146097)
    by (unfold doe, era; Z.to_euclidean_division_equations; lia).
  set (yoe := (doe - doe / 1460 + doe / 36524 - doe / 146096) / 365).
  assert (Hyoe : 0 <= yoe < 400)
    by (unfold yoe; Z.to_euclidean_division_equations; lia).
  set (doy := doe - (365 * yoe + yoe / 4 - yoe / 100)).
  assert (Hdoy : 0 <= doy < 366)
    by (unfold doy, yoe; Z.to_euclidean_division_equations; lia).
  set (mp := (5 * doy + 2) / 153).
  assert (Hmp : 0 <= mp < 12)
    by (unfold mp; Z.to_euclidean_division_equations; lia).
  assert (Hz : z = era * 146097 + doe - 719468) by (unfold doe, z'; lia).
  destruct (Z.ltb_spec mp 10);
    match goal with
    | |- context [?a <=? ?b] => destruct (Z.leb_spec a b)
    end;
    try lia.
  all: rewrite Hz at 1.
  all: unfold doy in *; Z.to_euclidean_division_equations; lia.
Qed.

(** The target resolved at startup is never in the past. *)
Lemma utc_target_not_past (t0 : Z) : t0 <= Sketch.getTargetDate t0.
Proof.
  unfold Sketch.getTargetDate.
  destruct (Z.ltb_spec (newDate (getFullYear t0) 3 11) t0) as [Hpast|Hle];
    [|exact Hle].
  cbn [newDate getFullYear utc]. unfold makeDay, yearFromTime.
  change (3 / 12) with 0. change (3 mod 12 + 1) with 4.
  pose proof (year_ends_before_next_april (t0 / msPerDay)) as Hnext.
  destruct (civil_from_days (t0 / msPerDay)) as [[y m] d].
  rewrite Z.add_0_r.
  unfold msPerDay in *. Z.to_euclidean_division_equations; lia.
Qed.

End UTCHost.

(** ** Zero-padding *)

Section Padding.

Local Open Scope string_scope.
Local Open Scope nat_scope.

Lemma filler_zeros (n : nat) :
  Str.filler n "" "0" = zeros n /\ Str.filler n "0" "0" = zeros n.
Proof.
  induction n as [|n [IH _]].
  - split; reflexivity.
  - split; cbn [Str.filler zeros]; rewrite IH; reflexivity.
Qed.

Lemma length_zeros (k : nat) : String.length (zeros k) = k.
Proof.
  induction k as [|k IH]; cbn [zeros String.length]; congruence.
Qed.

Lemma length_append (s1 s2 : string) :
  String.length (s1 ++ s2) = String.length s1 + String.length s2.
Proof.
  induction s1 as [|c s1 IH]; cbn [append String.length Nat.add]; congruence.
Qed.

(** [padStart] with ["0"] puts the missing zeros in front and removes
    nothing. *)
Lemma padStart_zeros (s : string) (width : nat) :
  Str.padStart s (Z.of_nat width) "0" = zeros (width - String.length s) ++ s.
Proof.
  unfold Str.padStart.
  destruct (Z.leb_spec (Z.of_nat width) (Z.of_nat (String.length s))) as [Hle|Hgt].
  - replace (width - String.length s) with 0 by lia. reflexivity.
  - rewrite (proj2 (filler_zeros _)). f_equal. f_equal. lia.
Qed.

End Padding.

(** C7.  For every integer [n], non-negative or not, [pad(n)] with the
    default width is [String(n)] with zeros put in front up to two
    characters: it is at least two characters long, nothing of [String(n)]
    is cut off, and a value already two characters or longer is returned
    as it is.  So [pad(5) = "05"], [pad(42) = "42"], [pad(100) = "100"]. *)
Theorem C7_zero_padding (n : Z) :
  Str.pad n None
    = (zeros (2 - String.length (Str.String_ n)) ++ Str.String_ n)%string /\
  String.length (Str.pad n None) = Nat.max 2 (String.length (Str.String_ n)) /\
  ((2 <= String.length (Str.String_ n))%nat -> Str.pad n None = Str.String_ n) /\
  Str.pad 5 None = "05"%string /\
  Str.pad 42 None = "42"%string /\
  Str.pad 100 None = "100"%string.
Proof.
  assert (Hpad : Str.pad n None
            = (zeros (2 - String.length (Str.String_ n)) ++ Str.String_ n)%string).
  { unfold Str.pad. apply (padStart_zeros (Str.String_ n) 2). }
  split; [exact Hpad|].
  split.
  { rewrite Hpad, length_append, length_zeros. lia. }
  split.
  { intros Hlong. rewrite Hpad.
    replace (2 - String.length (Str.String_ n))%nat with O by lia.
    reflexivity. }
  repeat split; reflexivity.
Qed.

Lemma C7_zero_padding_witness :
  Str.pad 366 None = Str.String_ 366.
Proof.
  refine (proj1 (proj2 (proj2 (C7_zero_padding 366))) _).
  vm_compute. repeat constructor.
Defined.

(** ** The font rotation *)

Section FontRotation.

Import FontSketch.

(** From a state of the invariant the index moves to its cyclic
    successor: the skip never fires. *)
Lemma nextIndex_successor (len i p : Z) :
  2 <= len -> 0 <= i < len -> p = i \/ p = -1 ->
  nextIndex len i p = JS.rem (i + 1) len /\
  0 <= nextIndex len i p < len.
Proof.
  intros Hlen Hi Hp. unfold nextIndex.
  rewrite rem_is_mod by lia.
  assert (Hrange : 0 <= (i + 1) mod len < len) by (apply Z.mod_pos_bound; lia).
  assert (Hne : (i + 1) mod len <> i).
  { destruct (Z.eq_dec (i + 1) len) as [Heq|Hneq].
    - rewrite Heq, Z.mod_same by lia. lia.
    - rewrite Z.mod_small by lia. lia. }
  assert (Hskip : ((i + 1) mod len === p) = false).
  { unfold JS.strict_eq. apply Z.eqb_neq. destruct Hp; lia. }
  rewrite Hskip. cbn [andb]. auto.
Qed.

Variable s : globals.
Variable now : Z.
Hypothesis enough_fonts : 2 <= Z.of_nat (List.length (fonts s)).
Hypothesis invariant : fontInvariant s.

(** A tick keeps the invariant. *)
Lemma tick_invariant : fontInvariant (snd (updateCountdown now s)).
Proof.
  destruct invariant as [Hi [Hp Hf]].
  destruct (nextIndex_successor _ _ _ enough_fonts Hi Hp) as [_ Hrange].
  unfold fontInvariant.
  destruct (Z.le_gt_cases (targetDate s - now) 0) as [Hle|Hgt].
  - rewrite FontFacts.fs_updateCountdown_complete by lia.
    cbn [snd fonts currentFontIndex previousFontIndex currentFont]. auto.
  - rewrite FontFacts.fs_updateCountdown_running by lia.
    cbn [snd fonts currentFontIndex previousFontIndex currentFont].
    destruct (_ || _); auto.
Qed.

(** A tick that finds a changed field moves to the next font of the
    list. *)
Lemma tick_changed_font :
  hasChanged now s = true ->
  currentFont (snd (updateCountdown now s))
  = item (fonts s) (JS.rem (currentFontIndex s + 1) (Z.of_nat (List.length (fonts s)))).
Proof.
  destruct invariant as [Hi [Hp Hf]].
  destruct (nextIndex_successor _ _ _ enough_fonts Hi Hp) as [Hnext _].
  unfold hasChanged.
  intros Hchanged. apply andb_prop in Hchanged as [Hpos Hany].
  apply Z.ltb_lt in Hpos.
  revert Hany.
  rewrite FontFacts.fs_updateCountdown_running by lia.
  cbn [snd days hours minutes seconds currentFont].
  intros Hany. rewrite Hany, Hnext.
  reflexivity.
Qed.

(** So, when neighbours in the list differ, the font changes. *)
Lemma tick_changed_differs :
  neighboursDiffer (fonts s) ->
  hasChanged now s = true ->
  currentFont s <> currentFont (snd (updateCountdown now s)).
Proof.
  intros Hdiffer Hchanged.
  rewrite (tick_changed_font Hchanged).
  destruct invariant as [Hi [_ Hf]]. rewrite Hf.
  apply Hdiffer. exact Hi.
Qed.

End FontRotation.

(** [setup] establishes the invariant, for any non-empty list. *)
Lemma fontInvariant_setup (fs : list string) (T : Z) :
  fs <> [] -> fontInvariant (fontSketchAt fs T).
Proof.
  intros Hne. destruct fs as [|x fs]; [congruence|].
  unfold fontInvariant, fontSketchAt.
  cbv [bind modify FontSketch.assign_targetDate FontSketch.assign_currentFont
       FontSketch.initialWith].
  cbn [snd FontSketch.fonts FontSketch.currentFontIndex
       FontSketch.previousFontIndex FontSketch.currentFont List.length].
  split; [lia|]. split; [right; reflexivity | reflexivity].
Qed.

(** A list without duplicates has differing neighbours. *)
Lemma NoDup_neighboursDiffer (fs : list string) :
  (2 <= List.length fs)%nat -> NoDup fs -> neighboursDiffer fs.
Proof.
  intros Hlen Hnodup i Hi.
  set (len := Z.of_nat (List.length fs)) in *.
  assert (Hj : 0 <= JS.rem (i + 1) len < len)
    by (rewrite rem_is_mod by lia; apply Z.mod_pos_bound; lia).
  assert (Hne : JS.rem (i + 1) len <> i).
  { rewrite rem_is_mod by lia.
    destruct (Z.eq_dec (i + 1) len) as [Heq|Hneq].
    - rewrite Heq, Z.mod_same by lia. lia.
    - rewrite Z.mod_small by lia. lia. }
  unfold FontSketch.item.
  destruct (Z.ltb_spec i 0); [lia|].
  destruct (Z.ltb_spec (JS.rem (i + 1) len) 0); [lia|].
  intros Heq. apply Hne.
  rewrite NoDup_nth_error in Hnodup.
  apply Hnodup in Heq; [lia | unfold len in *; lia].
Qed.

Lemma fontList_NoDup : NoDup FontSketch.fontList.
Proof.
  unfold FontSketch.fontList.
  repeat (constructor; [cbn [In]; intuition discriminate|]).
  constructor.
Defined.

(** Every state the host can reach after [setup] has the invariant. *)
Lemma fontInvariant_run (es : list event) (s : FontSketch.globals) :
  2 <= Z.of_nat (List.length (FontSketch.fonts s)) ->
  fontInvariant s ->
  fontInvariant (FontSketch.run es s).
Proof.
  revert s. induction es as [|e es IH]; intros s Hlen Hinv.
  - exact Hinv.
  - unfold FontSketch.run in *. cbn [fold_left].
    pose proof (FontFacts.fs_step_constants e s) as [_ Hfonts].
    apply IH; [rewrite Hfonts; exact Hlen|].
    destruct e as [r|[f]|]; unfold FontSketch.step.
    + rewrite FontFacts.fs_draw_globals.
      destruct (FontSketch.updateInterval <=? r_millis r - FontSketch.lastUpdateTime s);
        [|exact Hinv].
      exact (tick_invariant s (r_sample r) Hlen Hinv).
    + exact Hinv.
    + exact Hinv.
Qed.

(** [setup] itself leaves the invariant behind, so every state of a
    running sketch has it. *)
Lemma fontInvariant_after_setup `{HostDate} (fs : list string) (t0 t1 : Z) :
  2 <= Z.of_nat (List.length fs) ->
  fontInvariant (snd (FontSketch.setup t0 t1 (FontSketch.initialWith fs))).
Proof.
  intros Hlen.
  assert (Heq : snd (FontSketch.setup t0 t1 (FontSketch.initialWith fs))
                = snd (FontSketch.updateCountdown t1
                         (fontSketchAt fs (FontSketch.getTargetDate t0)))).
  { unfold FontSketch.setup, fontSketchAt.
    cbv [bind gets modify ret FontSketch.assign_targetDate
         FontSketch.assign_currentFont FontSketch.initialWith].
    cbn [FontSketch.fonts].
    destruct (FontSketch.updateCountdown t1 _) as [c s1]. reflexivity. }
  rewrite Heq. apply tick_invariant.
  - exact Hlen.
  - apply fontInvariant_setup. destruct fs; [cbn in Hlen; lia | discriminate].
Qed.

(** * Further properties of the code *)

(** ** The fields *)

Lemma decomposition_in_range (diff : Z) :
  0 < diff -> fieldsInRange (floorDecomposition diff).
Proof.
  intros Hpos. unfold fieldsInRange, floorDecomposition.
  repeat split; Z.to_euclidean_division_equations; lia.
Qed.

Lemma sk_updateCountdown_in_range (now : Z) (s : Sketch.globals) :
  fieldsInRange (Sketch.remaining (snd (Sketch.updateCountdown now s))).
Proof.
  destruct (Z.le_gt_cases (Sketch.targetDate s) now) as [Hle|Hgt].
  - rewrite (proj2 (SketchFacts.sk_remaining_complete s now Hle)).
    cbn. lia.
  - rewrite (proj2 (SketchFacts.sk_remaining_running s now ltac:(lia))).
    apply decomposition_in_range. lia.
Qed.

Lemma fs_updateCountdown_in_range (now : Z) (f : FontSketch.globals) :
  fieldsInRange (FontSketch.remaining (snd (FontSketch.updateCountdown now f))).
Proof.
  destruct (Z.le_gt_cases (FontSketch.targetDate f) now) as [Hle|Hgt].
  - rewrite (proj2 (FontFacts.fs_remaining_complete f now Hle)).
    cbn. lia.
  - rewrite (proj2 (FontFacts.fs_remaining_running f now ltac:(lia))).
    apply decomposition_in_range. lia.
Qed.

Lemma sk_run_in_range `{HostDate} (es : list event) (s : Sketch.globals) :
  fieldsInRange (Sketch.remaining s) ->
  fieldsInRange (Sketch.remaining (Sketch.run es s)).
Proof.
  revert s. induction es as [|e es IH]; intros s Hs.
  - exact Hs.
  - unfold Sketch.run in *. cbn [fold_left]. apply IH.
    destruct e as [r|[f]|]; unfold Sketch.step.
    + rewrite SketchFacts.sk_draw_globals.
      destruct (Sketch.updateInterval <=? r_millis r - Sketch.lastUpdateTime s);
        [|exact Hs].
      exact (sk_updateCountdown_in_range (r_sample r) s).
    + exact Hs.
    + exact Hs.
Qed.

Lemma fs_run_in_range (es : list event) (f : FontSketch.globals) :
  fieldsInRange (FontSketch.remaining f) ->
  fieldsInRange (FontSketch.remaining (FontSketch.run es f)).
Proof.
  revert f. induction es as [|e es IH]; intros f Hf.
  - exact Hf.
  - unfold FontSketch.run in *. cbn [fold_left]. apply IH.
    destruct e as [r|[g]|]; unfold FontSketch.step.
    + rewrite FontFacts.fs_draw_globals.
      destruct (FontSketch.updateInterval <=? r_millis r - FontSketch.lastUpdateTime f);
        [|exact Hf].
      exact (fs_updateCountdown_in_range (r_sample r) f).
    + exact Hf.
    + exact Hf.
Qed.

Lemma sk_setup_unfold `{HostDate} (t0 t1 : Z) (s : Sketch.globals) :
  snd (Sketch.setup t0 t1 s)
  = snd (Sketch.updateCountdown t1
           (snd (Sketch.assign_targetDate (Sketch.getTargetDate t0) s))).
Proof.
  unfold Sketch.setup. unfold bind at 1, bind at 1.
  cbv [Sketch.assign_targetDate modify]. cbn [snd].
  destruct (Sketch.updateCountdown t1 _) as [c s1]. reflexivity.
Qed.

Lemma fs_setup_unfold `{HostDate} (fs : list string) (t0 t1 : Z) :
  snd (FontSketch.setup t0 t1 (FontSketch.initialWith fs))
  = snd (FontSketch.updateCountdown t1
           (fontSketchAt fs (FontSketch.getTargetDate t0))).
Proof.
  unfold FontSketch.setup, fontSketchAt.
  cbv [bind gets modify ret FontSketch.assign_targetDate
       FontSketch.assign_currentFont FontSketch.initialWith].
  cbn [FontSketch.fonts].
  destruct (FontSketch.updateCountdown t1 _) as [c s1]. reflexivity.
Qed.

(** X1.  In every state either sketch can be in after [setup], whatever
    the clocks read and whatever frames, timer callbacks and resizes the
    host runs, days is non-negative, hours is between 0 and 23, and minutes
    and seconds are between 0 and 59. *)
Theorem fields_always_in_range `{HostDate}
    (fs : list string) (t0 t1 : Z) (es : list event) :
  fieldsInRange
    (Sketch.remaining (Sketch.run es (snd (Sketch.setup t0 t1 Sketch.initial)))) /\
  fieldsInRange
    (FontSketch.remaining
       (FontSketch.run es (snd (FontSketch.setup t0 t1 (FontSketch.initialWith fs))))).
Proof.
  split.
  - apply sk_run_in_range. rewrite sk_setup_unfold.
    apply sk_updateCountdown_in_range.
  - apply fs_run_in_range. rewrite fs_setup_unfold.
    apply fs_updateCountdown_in_range.
Qed.

(** Two positive differences decompose alike exactly when they hold the
    same number of whole seconds. *)
Lemma decomposition_injective (d1 d2 : Z) :
  floorDecomposition d1 = floorDecomposition d2 <-> d1 / 1000 = d2 / 1000.
Proof.
  split.
  - intros Heq. rewrite <- !decomposition_total. rewrite Heq. reflexivity.
  - intros Heq. unfold floorDecomposition.
    assert (H1 : d1 / 86400000 = d2 / 86400000).
    { replace 86400000 with (1000 * 86400) by reflexivity.
      rewrite <- !Z.div_div by lia. rewrite Heq. reflexivity. }
    assert (H2 : d1 mod 86400000 / 3600000 = d2 mod 86400000 / 3600000)
      by (Z.to_euclidean_division_equations; lia).
    assert (H3 : d1 mod 3600000 / 60000 = d2 mod 3600000 / 60000)
      by (Z.to_euclidean_division_equations; lia).
    assert (H4 : d1 mod 60000 / 1000 = d2 mod 60000 / 1000)
      by (Z.to_euclidean_division_equations; lia).
    rewrite H1, H2, H3, H4. reflexivity.
Qed.

(** X2.  Before the target the display is a faithful count of the whole
    seconds left: two samples (of either sketch, from any globals) show the
    same four fields exactly when [floor(diff/1000)] is the same for both,
    and the total of the fields is that number. *)
Theorem display_counts_whole_seconds
    (target now1 now2 : Z) (s1 s2 : Sketch.globals) (f1 f2 : FontSketch.globals) :
  Sketch.targetDate s1 = target -> Sketch.targetDate s2 = target ->
  FontSketch.targetDate f1 = target -> FontSketch.targetDate f2 = target ->
  now1 < target -> now2 < target ->
  (Sketch.remaining (snd (Sketch.updateCountdown now1 s1))
   = Sketch.remaining (snd (Sketch.updateCountdown now2 s2))
   <-> (target - now1) / 1000 = (target - now2) / 1000) /\
  (FontSketch.remaining (snd (FontSketch.updateCountdown now1 f1))
   = FontSketch.remaining (snd (FontSketch.updateCountdown now2 f2))
   <-> (target - now1) / 1000 = (target - now2) / 1000) /\
  Sketch.totalSeconds (snd (Sketch.updateCountdown now1 s1)) = (target - now1) / 1000 /\
  FontSketch.totalSeconds (snd (FontSketch.updateCountdown now1 f1))
  = (target - now1) / 1000.
Proof.
  intros Hs1 Hs2 Hf1 Hf2 H1 H2.
  pose proof (proj2 (SketchFacts.sk_remaining_running s1 now1 ltac:(lia))) as Ra.
  pose proof (proj2 (SketchFacts.sk_remaining_running s2 now2 ltac:(lia))) as Rb.
  pose proof (proj2 (FontFacts.fs_remaining_running f1 now1 ltac:(lia))) as Rc.
  pose proof (proj2 (FontFacts.fs_remaining_running f2 now2 ltac:(lia))) as Rd.
  rewrite Hs1 in Ra. rewrite Hs2 in Rb. rewrite Hf1 in Rc. rewrite Hf2 in Rd.
  split; [rewrite Ra, Rb; apply decomposition_injective|].
  split; [rewrite Rc, Rd; apply decomposition_injective|].
  split.
  - change (totalOf (Sketch.remaining (snd (Sketch.updateCountdown now1 s1)))
            = (target - now1) / 1000).
    rewrite Ra. apply decomposition_total.
  - change (totalOf (FontSketch.remaining (snd (FontSketch.updateCountdown now1 f1)))
            = (target - now1) / 1000).
    rewrite Rc. apply decomposition_total.
Qed.

Lemma display_counts_whole_seconds_witness :
  Sketch.totalSeconds (snd (Sketch.updateCountdown 1000 (sketchAt 90061000))) = 90060.
Proof.
  refine (proj1 (proj2 (proj2 (display_counts_whole_seconds 90061000 1000 1500
            (sketchAt 90061000) (sketchAt 90061000)
            (fontSketchAt FontSketch.fontList 90061000)
            (fontSketchAt FontSketch.fontList 90061000) _ _ _ _ _ _))));
    reflexivity.
Defined.

(** ** Sampling again within the same second *)

Lemma strict_neq_same (a : Z) : (a !== a) = false.
Proof. apply strict_neq_false. reflexivity. Qed.

Lemma source_fields_agree (d1 d2 : Z) :
  0 < d1 -> 0 < d2 -> d1 / 1000 = d2 / 1000 ->
  JS.floor_div d2 (1000 * 60 * 60 * 24) = JS.floor_div d1 (1000 * 60 * 60 * 24) /\
  JS.floor_div (JS.rem d2 (1000 * 60 * 60 * 24)) (1000 * 60 * 60)
  = JS.floor_div (JS.rem d1 (1000 * 60 * 60 * 24)) (1000 * 60 * 60) /\
  JS.floor_div (JS.rem d2 (1000 * 60 * 60)) (1000 * 60)
  = JS.floor_div (JS.rem d1 (1000 * 60 * 60)) (1000 * 60) /\
  JS.floor_div (JS.rem d2 (1000 * 60)) 1000
  = JS.floor_div (JS.rem d1 (1000 * 60)) 1000.
Proof.
  intros H1 H2 Hsame.
  pose proof (source_decomposition d1 H1) as E1.
  pose proof (source_decomposition d2 H2) as E2.
  apply decomposition_injective in Hsame.
  rewrite <- E1, <- E2 in Hsame.
  injection Hsame as Ha Hb Hc Hd. auto.
Qed.

(** X3.  A sample taken before the target in the same whole second as the
    sample before it changes nothing at all: the globals are left exactly as
    they were, so no flag is raised, no timer is scheduled and (in the
    font-cycling sketch) no font is selected; the call returns [false]. *)
Theorem resample_within_second_is_silent
    (now1 now2 : Z) (s : Sketch.globals) (f : FontSketch.globals) :
  now1 < Sketch.targetDate s -> now2 < Sketch.targetDate s ->
  (Sketch.targetDate s - now1) / 1000 = (Sketch.targetDate s - now2) / 1000 ->
  FontSketch.targetDate f = Sketch.targetDate s ->
  Sketch.updateCountdown now2 (snd (Sketch.updateCountdown now1 s))
  = (false, snd (Sketch.updateCountdown now1 s)) /\
  FontSketch.updateCountdown now2 (snd (FontSketch.updateCountdown now1 f))
  = (false, snd (FontSketch.updateCountdown now1 f)).
Proof.
  intros H1 H2 Hsame Hf.
  destruct (source_fields_agree (Sketch.targetDate s - now1)
              (Sketch.targetDate s - now2) ltac:(lia) ltac:(lia) Hsame)
    as [Ed [Eh [Em Es]]].
  split.
  - rewrite (SketchFacts.sk_updateCountdown_running s now1) by lia.
    cbn [snd].
    rewrite SketchFacts.sk_updateCountdown_running
      by (cbn [Sketch.targetDate]; lia).
    cbn [Sketch.targetDate Sketch.prevDays Sketch.prevHours Sketch.prevMinutes
         Sketch.prevSeconds Sketch.animatingElements Sketch.lastUpdateTime
         Sketch.timers].
    rewrite Ed, Eh, Em, Es, !strict_neq_same.
    reflexivity.
  - rewrite <- Hf in *.
    rewrite (FontFacts.fs_updateCountdown_running f now1) by lia.
    cbn [snd].
    rewrite FontFacts.fs_updateCountdown_running
      by (cbn [FontSketch.targetDate]; lia).
    cbn [FontSketch.targetDate FontSketch.prevDays FontSketch.prevHours
         FontSketch.prevMinutes FontSketch.prevSeconds
         FontSketch.animatingElements FontSketch.lastUpdateTime
         FontSketch.timers FontSketch.fonts FontSketch.currentFontIndex
         FontSketch.previousFontIndex FontSketch.currentFont].
    rewrite Ed, Eh, Em, Es, !strict_neq_same.
    reflexivity.
Qed.

Lemma resample_within_second_is_silent_witness :
  Sketch.updateCountdown 1500 (snd (Sketch.updateCountdown 1250 (sketchAt 90061000)))
  = (false, snd (Sketch.updateCountdown 1250 (sketchAt 90061000))).
Proof.
  refine (proj1 (resample_within_second_is_silent 1250 1500
            (sketchAt 90061000) (fontSketchAt FontSketch.fontList 90061000)
            _ _ _ _)); reflexivity.
Defined.

(** ** The last second *)

(** X4.  During the last second before the target, that is for
    [0 < target - now < 1000], [updateCountdown] (in both sketches) already
    sets all four fields to zero but still returns [false]: the display
    reads zero before the countdown is reported complete. *)
Theorem last_second_reads_zero
    (now : Z) (s : Sketch.globals) (f : FontSketch.globals) :
  0 < Sketch.targetDate s - now < 1000 ->
  0 < FontSketch.targetDate f - now < 1000 ->
  (fst (Sketch.updateCountdown now s) = false /\
   Sketch.remaining (snd (Sketch.updateCountdown now s)) = (0, 0, 0, 0)) /\
  (fst (FontSketch.updateCountdown now f) = false /\
   FontSketch.remaining (snd (FontSketch.updateCountdown now f)) = (0, 0, 0, 0)).
Proof.
  intros Hs Hf.
  assert (Hz : forall diff, 0 < diff < 1000 -> floorDecomposition diff = (0, 0, 0, 0)).
  { intros diff Hd. unfold floorDecomposition.
    rewrite (Z.mod_small diff 86400000), (Z.mod_small diff 3600000),
            (Z.mod_small diff 60000) by lia.
    rewrite !Z.div_small by lia. reflexivity. }
  split.
  - destruct (SketchFacts.sk_remaining_running s now ltac:(lia)) as [Hc Hr].
    rewrite Hc, Hr, Hz by lia. split; reflexivity.
  - destruct (FontFacts.fs_remaining_running f now ltac:(lia)) as [Hc Hr].
    rewrite Hc, Hr, Hz by lia. split; reflexivity.
Qed.

Lemma last_second_reads_zero_witness :
  fst (Sketch.updateCountdown 9500 (sketchAt 10000)) = false /\
  Sketch.remaining (snd (Sketch.updateCountdown 9500 (sketchAt 10000))) = (0, 0, 0, 0).
Proof.
  refine (proj1 (last_second_reads_zero 9500 (sketchAt 10000)
                   (fontSketchAt FontSketch.fontList 10000) _ _));
    split; reflexivity.
Defined.

(** ** [getNextFont] *)

Lemma item_in_range (fs : list string) (i : Z) :
  0 <= i < Z.of_nat (List.length fs) ->
  exists font, FontSketch.item fs i = Some font /\ In font fs.
Proof.
  intros Hi. unfold FontSketch.item.
  destruct (Z.ltb_spec i 0); [lia|].
  destruct (nth_error fs (Z.to_nat i)) as [font|] eqn:Hnth.
  - exists font. split; [reflexivity|]. eapply nth_error_In. exact Hnth.
  - apply nth_error_None in Hnth. lia.
Qed.

Lemma nextIndex_in_range (len i p : Z) :
  1 <= len -> -1 <= i -> 0 <= nextIndex len i p < len.
Proof.
  intros Hlen Hi. unfold nextIndex.
  rewrite (rem_is_mod (i + 1)) by lia.
  assert (H1 : 0 <= (i + 1) mod len < len) by (apply Z.mod_pos_bound; lia).
  destruct (_ && _); [|exact H1].
  rewrite rem_is_mod by lia. apply Z.mod_pos_bound. lia.
Qed.

(** X5.  With a non-empty font list and the current index at -1 or above,
    [getNextFont] never returns [undefined]: it returns a font of the list,
    leaves the current and the previous index equal and inside the list, and
    changes no other global. *)
Theorem getNextFont_selects_listed_font (s : FontSketch.globals) :
  FontSketch.fonts s <> [] ->
  -1 <= FontSketch.currentFontIndex s ->
  let s' := snd (FontSketch.getNextFont s) in
  (exists font, fst (FontSketch.getNextFont s) = Some font /\
                In font (FontSketch.fonts s)) /\
  0 <= FontSketch.currentFontIndex s' < Z.of_nat (List.length (FontSketch.fonts s)) /\
  FontSketch.previousFontIndex s' = FontSketch.currentFontIndex s' /\
  fst (FontSketch.getNextFont s)
  = FontSketch.item (FontSketch.fonts s) (FontSketch.currentFontIndex s') /\
  s' = FontSketch.mkGlobals (FontSketch.fonts s) (FontSketch.targetDate s)
         (FontSketch.currentFontIndex s') (FontSketch.currentFontIndex s')
         (FontSketch.currentFont s)
         (FontSketch.days s) (FontSketch.hours s) (FontSketch.minutes s)
         (FontSketch.seconds s)
         (FontSketch.prevDays s) (FontSketch.prevHours s)
         (FontSketch.prevMinutes s) (FontSketch.prevSeconds s)
         (FontSketch.animatingElements s) (FontSketch.lastUpdateTime s)
         (FontSketch.timers s).
Proof.
  intros Hne Hi s'.
  assert (Hlen : 1 <= Z.of_nat (List.length (FontSketch.fonts s))).
  { destruct (FontSketch.fonts s); [congruence | cbn [List.length]; lia]. }
  pose proof (nextIndex_in_range _ _ (FontSketch.previousFontIndex s) Hlen Hi)
    as Hrange.
  unfold s'. rewrite FontFacts.fs_getNextFont.
  cbn [fst snd FontSketch.currentFontIndex FontSketch.previousFontIndex].
  split; [apply item_in_range; exact Hrange|].
  repeat split; try reflexivity; apply Hrange.
Qed.

Lemma getNextFont_selects_listed_font_witness :
  fst (FontSketch.getNextFont (fontSketchAt FontSketch.fontList 10000))
  = FontSketch.item FontSketch.fontList 1.
Proof.
  refine (proj1 (proj2 (proj2 (proj2
            (getNextFont_selects_listed_font
               (fontSketchAt FontSketch.fontList 10000) _ _))))).
  - discriminate.
  - vm_compute. discriminate.
Defined.

(** The cyclic successor of an index of the list. *)
Lemma successor_values (len m : Z) :
  2 <= len -> 0 <= m < len ->
  ((m + 1) mod len = m + 1 /\ m + 1 < len) \/
  ((m + 1) mod len = 0 /\ m + 1 = len).
Proof.
  intros Hlen Hm.
  destruct (Z.eq_dec (m + 1) len) as [Heq|Hneq].
  - right. rewrite Heq, Z.mod_same by lia. auto.
  - left. rewrite Z.mod_small by lia. lia.
Qed.

(** X6.  Whatever the two indices hold (the current one at -1 or above),
    with at least two fonts the index [getNextFont] moves to is never the
    previous index; with at least three fonts it is not the current index
    either. *)
Theorem getNextFont_avoids_previous (s : FontSketch.globals) :
  2 <= Z.of_nat (List.length (FontSketch.fonts s)) ->
  -1 <= FontSketch.currentFontIndex s ->
  let s' := snd (FontSketch.getNextFont s) in
  FontSketch.currentFontIndex s' <> FontSketch.previousFontIndex s /\
  (3 <= Z.of_nat (List.length (FontSketch.fonts s)) ->
   FontSketch.currentFontIndex s' <> FontSketch.currentFontIndex s).
Proof.
  intros Hlen Hi s'. unfold s'. rewrite FontFacts.fs_getNextFont.
  cbn [snd FontSketch.currentFontIndex].
  set (len := Z.of_nat (List.length (FontSketch.fonts s))) in *.
  set (i := FontSketch.currentFontIndex s) in *.
  set (p := FontSketch.previousFontIndex s).
  clearbody len i p.
  unfold nextIndex. rewrite (rem_is_mod (i + 1)) by lia.
  assert (H1 : 0 <= (i + 1) mod len < len) by (apply Z.mod_pos_bound; lia).
  assert (Hm : 0 <= i < len ->
               ((i + 1) mod len = i + 1 /\ i + 1 < len) \/
               ((i + 1) mod len = 0 /\ i + 1 = len))
    by (intros Hin; apply successor_values; lia).
  remember ((i + 1) mod len) as m eqn:Em. clear Em.
  assert (Hstep : m <> i).
  { destruct (Z_lt_ge_dec i len) as [Hin|Hout]; [|lia].
    destruct (Z.eq_dec i (-1)) as [Hneg|Hneg]; [lia|].
    destruct (Hm ltac:(lia)) as [[E B]|[E B]]; lia. }
  unfold JS.strict_eq.
  destruct (Z.eqb_spec m p) as [Heq|Hneq];
    destruct (Z.ltb_spec 1 len) as [_|Hone]; try lia; cbn [andb].
  - rewrite rem_is_mod by lia.
    destruct (successor_values len m ltac:(lia) H1) as [[E2 B2]|[E2 B2]];
      rewrite E2; (split; [lia|]); intros H3.
    + lia.
    + destruct (Z_lt_ge_dec i len) as [Hin|Hout]; [|lia].
      destruct (Z.eq_dec i (-1)) as [Hneg|Hneg]; [lia|].
      destruct (Hm ltac:(lia)) as [[E B]|[E B]]; lia.
  - split; [exact Hneq|]. intros _. exact Hstep.
Qed.

Lemma getNextFont_avoids_previous_witness :
  let s := snd (FontSketch.assign_previousFontIndex 1
                  (fontSketchAt FontSketch.fontList 10000)) in
  FontSketch.currentFontIndex (snd (FontSketch.getNextFont s)) <> 1.
Proof.
  intros s.
  refine (proj1 (getNextFont_avoids_previous s _ _)).
  - vm_compute. discriminate.
  - vm_compute. discriminate.
Defined.

(** ** The fonts in list order *)

(** A tick that finds a changed field moves the index to its cyclic
    successor. *)
Lemma tick_changed_index (s : FontSketch.globals) (now : Z) :
  2 <= Z.of_nat (List.length (FontSketch.fonts s)) ->
  fontInvariant s ->
  hasChanged now s = true ->
  FontSketch.currentFontIndex (snd (FontSketch.updateCountdown now s))
  = (FontSketch.currentFontIndex s + 1) mod Z.of_nat (List.length (FontSketch.fonts s)).
Proof.
  intros Hlen [Hi [Hp Hf]] Hchanged.
  destruct (nextIndex_successor _ _ _ Hlen Hi Hp) as [Hnext _].
  unfold hasChanged in Hchanged.
  apply andb_prop in Hchanged as [Hpos Hany].
  apply Z.ltb_lt in Hpos.
  revert Hany.
  rewrite FontFacts.fs_updateCountdown_running by lia.
  cbn [snd FontSketch.days FontSketch.hours FontSketch.minutes
       FontSketch.seconds FontSketch.currentFontIndex].
  intros Hany. rewrite Hany, Hnext. apply rem_is_mod; lia.
Qed.

(** X7.  The fonts are used in list order, cyclically: after [k] ticks
    that each find a changed field, the index has advanced by [k] modulo the
    length of the list, and the font in use is the one at that index. *)
Theorem fonts_used_in_list_order (nows : list Z) (s : FontSketch.globals) :
  2 <= Z.of_nat (List.length (FontSketch.fonts s)) ->
  fontInvariant s ->
  everyTickChanges nows s ->
  let s' := afterTicks nows s in
  let len := Z.of_nat (List.length (FontSketch.fonts s)) in
  FontSketch.currentFontIndex s'
  = (FontSketch.currentFontIndex s + Z.of_nat (List.length nows)) mod len /\
  FontSketch.currentFont s'
  = FontSketch.item (FontSketch.fonts s) (FontSketch.currentFontIndex s').
Proof.
  revert s. induction nows as [|now rest IH]; intros s Hlen Hinv Hticks.
  - cbn [afterTicks fold_left List.length Z.of_nat].
    destruct Hinv as [Hi [_ Hf]].
    rewrite Z.add_0_r, Z.mod_small by lia. auto.
  - destruct Hticks as [Hchanged Hrest].
    pose proof (FontFacts.fs_updateCountdown_constants s now) as [_ Hfonts].
    pose proof (tick_invariant s now Hlen Hinv) as Hinv'.
    pose proof (tick_changed_index s now Hlen Hinv Hchanged) as Hidx.
    specialize (IH (snd (FontSketch.updateCountdown now s))).
    rewrite Hfonts in IH. specialize (IH Hlen Hinv' Hrest).
    cbv zeta in IH. destruct IH as [IHidx IHfont].
    unfold afterTicks in *. cbn [fold_left].
    split; [|exact IHfont].
    rewrite IHidx, Hidx.
    rewrite Z.add_mod_idemp_l by lia.
    f_equal. cbn [List.length]. lia.
Qed.

(** With the sketch's 14 fonts, 15 changing ticks bring back the font of
    the first one. *)
Lemma fonts_used_in_list_order_witness :
  let nows := map (fun k => 1000 * Z.of_nat k) (seq 0 15) in
  FontSketch.currentFontIndex
    (afterTicks nows (fontSketchAt FontSketch.fontList 100000)) = 1.
Proof.
  intros nows.
  refine (proj1 (fonts_used_in_list_order nows
                   (fontSketchAt FontSketch.fontList 100000) _ _ _)).
  - vm_compute. discriminate.
  - apply fontInvariant_setup. discriminate.
  - vm_compute. repeat split.
Defined.

(** ** When the font changes *)

Lemma any_differs (a b c d a' b' c' d' : Z) :
  ((a !== a') || (b !== b') || (c !== c') || (d !== d')) = true
  <-> (a, b, c, d) <> (a', b', c', d').
Proof.
  unfold JS.strict_neq.
  destruct (Z.eqb_spec a a'), (Z.eqb_spec b b'), (Z.eqb_spec c c'),
           (Z.eqb_spec d d'); cbn [negb orb]; split; intros H;
    try reflexivity; try discriminate; try congruence.
Qed.

(** What [hasChanged] is, for a call before the target. *)
Lemma hasChanged_running (now : Z) (s : FontSketch.globals) :
  now < FontSketch.targetDate s ->
  hasChanged now s = true
  <-> (FontSketch.prevDays s, FontSketch.prevHours s,
       FontSketch.prevMinutes s, FontSketch.prevSeconds s)
      <> floorDecomposition (FontSketch.targetDate s - now).
Proof.
  intros Hlt. unfold hasChanged.
  destruct (Z.ltb_spec 0 (FontSketch.targetDate s - now)); [|lia].
  cbn [andb].
  pose proof (proj2 (FontFacts.fs_remaining_running s now Hlt)) as Hrem.
  unfold FontSketch.remaining in Hrem. rewrite <- Hrem.
  apply any_differs.
Qed.

(** X8.  After a sample taken before the target, the next sample selects a
    new font exactly when it is also before the target and holds a different
    number of whole seconds; otherwise the font and both indices stay as
    they are. *)
Theorem font_changes_with_the_second
    (now1 now2 : Z) (s : FontSketch.globals) :
  now1 < FontSketch.targetDate s ->
  let T := FontSketch.targetDate s in
  let s1 := snd (FontSketch.updateCountdown now1 s) in
  let s2 := snd (FontSketch.updateCountdown now2 s1) in
  (hasChanged now2 s1 = true
   <-> now2 < T /\ (T - now1) / 1000 <> (T - now2) / 1000) /\
  (hasChanged now2 s1 = true ->
   FontSketch.currentFontIndex s2
   = nextIndex (Z.of_nat (List.length (FontSketch.fonts s)))
       (FontSketch.currentFontIndex s1) (FontSketch.previousFontIndex s1) /\
   FontSketch.currentFont s2
   = FontSketch.item (FontSketch.fonts s) (FontSketch.currentFontIndex s2)) /\
  (hasChanged now2 s1 = false ->
   FontSketch.currentFont s2 = FontSketch.currentFont s1 /\
   FontSketch.currentFontIndex s2 = FontSketch.currentFontIndex s1 /\
   FontSketch.previousFontIndex s2 = FontSketch.previousFontIndex s1).
Proof.
  intros H1 T s1 s2.
  pose proof (FontFacts.fs_updateCountdown_constants s now1) as [HT Hfonts].
  fold s1 in HT, Hfonts.
  assert (Hprev : (FontSketch.prevDays s1, FontSketch.prevHours s1,
                   FontSketch.prevMinutes s1, FontSketch.prevSeconds s1)
                  = floorDecomposition (T - now1)).
  { unfold s1, T. rewrite FontFacts.fs_updateCountdown_running by lia.
    cbn [snd FontSketch.prevDays FontSketch.prevHours FontSketch.prevMinutes
         FontSketch.prevSeconds].
    apply source_decomposition. lia. }
  assert (Hiff : hasChanged now2 s1 = true
                 <-> now2 < T /\ (T - now1) / 1000 <> (T - now2) / 1000).
  { destruct (Z_lt_ge_dec now2 T) as [H2|H2].
    - rewrite hasChanged_running by (rewrite HT; exact H2).
      rewrite Hprev, HT. fold T.
      rewrite decomposition_injective. tauto.
    - unfold hasChanged. rewrite HT. fold T.
      destruct (Z.ltb_spec 0 (T - now2)); [lia|]. cbn [andb].
      split; [discriminate | lia]. }
  split; [exact Hiff|].
  destruct (Z_lt_ge_dec now2 T) as [H2|H2].
  - pose proof (FontFacts.fs_updateCountdown_running s1 now2
                  ltac:(rewrite HT; fold T; lia)) as Heq.
    cbv zeta in Heq.
    assert (Hb : hasChanged now2 s1
                 = ((FontSketch.prevDays s1 !== FontSketch.days s2)
                    || (FontSketch.prevHours s1 !== FontSketch.hours s2)
                    || (FontSketch.prevMinutes s1 !== FontSketch.minutes s2)
                    || (FontSketch.prevSeconds s1 !== FontSketch.seconds s2))).
    { unfold hasChanged. rewrite HT. fold T.
      destruct (Z.ltb_spec 0 (T - now2)); [|lia]. reflexivity. }
    rewrite Hb. unfold s2. rewrite Heq.
    cbn [snd FontSketch.days FontSketch.hours FontSketch.minutes
         FontSketch.seconds FontSketch.currentFont FontSketch.currentFontIndex
         FontSketch.previousFontIndex].
    rewrite Hfonts.
    split; intros Hc; rewrite Hc; auto.
  - split.
    + intros Hc. apply Hiff in Hc. lia.
    + intros _. unfold s2.
      rewrite FontFacts.fs_updateCountdown_complete by (rewrite HT; fold T; lia).
      auto.
Qed.

Lemma font_changes_with_the_second_witness :
  let s1 := snd (FontSketch.updateCountdown 1250
                   (fontSketchAt FontSketch.fontList 10000)) in
  hasChanged 2250 s1 = true <-> 2250 < 10000 /\ 8750 / 1000 <> 7750 / 1000.
Proof.
  intros s1.
  exact (proj1 (font_changes_with_the_second 1250 2250
                  (fontSketchAt FontSketch.fontList 10000) ltac:(reflexivity))).
Defined.

(** ** [pad] *)

Section PadWidths.

Local Open Scope string_scope.




(** A value below 100 is drawn with exactly two characters. *)
Lemma pad_two_characters (n : Z) :
  0 <= n < 100 -> String.length (Str.pad n None) = 2%nat.
Proof.
  intros Hn.
  assert (Hall : forallb (fun k => Nat.eqb (String.length (Str.pad (Z.of_nat k) None)) 2)
                         (seq 0 100) = true) by (vm_compute; reflexivity).
  rewrite forallb_forall in Hall.
  specialize (Hall (Z.to_nat n)).
  rewrite Z2Nat.id in Hall by lia.
  apply Nat.eqb_eq, Hall, in_seq. lia.
Qed.

Lemma pad_at_least_two (n : Z) : (2 <= String.length (Str.pad n None))%nat.
Proof.
  unfold Str.pad.
  change (Str.padStart (Str.String_ n) 2 "0")
    with (Str.padStart (Str.String_ n) (Z.of_nat 2) "0").
  rewrite padStart_zeros, length_append, length_zeros. lia.
Qed.

End PadWidths.

(** ** The frame *)

(** What [draw] of [src/sketch.js] puts on the canvas, from the globals it
    leaves. *)
Lemma sk_draw_canvas `{HostDate} (r : readings) (s : Sketch.globals) :
  let s' := snd (Sketch.draw r s) in
  fst (Sketch.draw r s)
  = (mkPainted ("Countdown to April 11, "
                ++ Str.String_ (getFullYear (Sketch.targetDate s'))) 255
       :: (if completeShown (Sketch.targetDate s') (Sketch.remaining s') (r_render r)
           then [mkPainted "Countdown complete" 255] else [])
       ++ paintedGroups (Sketch.remaining s') (Sketch.animatingElements s'),
     Returned).
Proof.
  unfold Sketch.draw. cbv [bind gets].
  destruct (Sketch.updateInterval <=? r_millis r - Sketch.lastUpdateTime s);
    cbv [when bind ret];
    [destruct (Sketch.updateCountdown (r_sample r) s) as [c s1]|];
    SketchFacts.js_unfold; cbn [fst snd];
    unfold completeShown, Sketch.remaining;
    SketchFacts.js_unfold;
    (destruct (_ && _); reflexivity).
Qed.

(** What [draw] of [src/unnamed/part_000] puts on the canvas. *)
Lemma fs_draw_canvas (r : readings) (f : FontSketch.globals) :
  let f' := snd (FontSketch.draw r f) in
  fst (FontSketch.draw r f)
  = (mkPainted "100-Day Countdown" 255
       :: (if completeShown (FontSketch.targetDate f') (FontSketch.remaining f')
                            (r_render r)
           then [mkPainted "Countdown complete" 255] else []),
     Threw "TypeError").
Proof.
  unfold FontSketch.draw. cbv [bind gets].
  destruct (FontSketch.updateInterval <=? r_millis r - FontSketch.lastUpdateTime f);
    cbv [when bind ret];
    [destruct (FontSketch.updateCountdown (r_sample r) f) as [c f1]|];
    FontFacts.js_unfold; cbn [fst snd];
    unfold completeShown, FontSketch.remaining;
    FontFacts.js_unfold;
    (destruct (_ && _); reflexivity).
Qed.

Section FrameTexts.

Local Open Scope string_scope.

(** [String(num)] starts with a digit or a minus sign. *)
Lemma String_first_char (n : Z) :
  exists c rest, Str.String_ n = String c rest /\ c <> "C"%char.
Proof.
  unfold Str.String_.
  destruct n as [|p|p]; cbn [Z.to_int NilZero.string_of_int].
  - exists "0"%char, "". split; [reflexivity | discriminate].
  - destruct (Pos.to_uint p); cbn [NilZero.string_of_uint NilEmpty.string_of_uint];
      eexists; eexists; (split; [reflexivity | discriminate]).
  - exists "-"%char. eexists. split; [reflexivity | discriminate].
Qed.

Lemma pad_first_char (n : Z) :
  exists c rest, Str.pad n None = String c rest /\ c <> "C"%char.
Proof.
  unfold Str.pad.
  change (Str.padStart (Str.String_ n) 2 "0")
    with (Str.padStart (Str.String_ n) (Z.of_nat 2) "0").
  rewrite padStart_zeros.
  destruct (2 - String.length (Str.String_ n))%nat as [|k].
  - apply String_first_char.
  - exists "0"%char. eexists. split; [reflexivity | discriminate].
Qed.

Lemma pad_is_not_the_message (n : Z) (alpha : Z) :
  mkPainted "Countdown complete" 255 <> mkPainted (Str.pad n None) alpha.
Proof.
  destruct (pad_first_char n) as [c [rest [Heq Hc]]].
  rewrite Heq. intros H. injection H as Hchar _ _. congruence.
Qed.

Lemma completeShown_true (target : Z) (fields : Z * Z * Z * Z) (render : Z) :
  completeShown target fields render = true
  <-> fields = (0, 0, 0, 0) /\ target <= render.
Proof.
  destruct fields as [[[d h] m] sec]. unfold completeShown, JS.strict_eq.
  rewrite !andb_true_iff, !Z.eqb_eq, Z.leb_le.
  split.
  - intros [[[[Hd Hh] Hm] Hs] Ht]. subst. auto.
  - intros [Heq Ht]. injection Heq as Hd Hh Hm Hs. auto.
Qed.

(** The canvas of a frame, with the target as it was before the frame. *)
Lemma sk_canvas `{HostDate} (r : readings) (s : Sketch.globals) :
  let s' := snd (Sketch.draw r s) in
  fst (fst (Sketch.draw r s))
  = mkPainted ("Countdown to April 11, "
               ++ Str.String_ (getFullYear (Sketch.targetDate s))) 255
      :: (if completeShown (Sketch.targetDate s) (Sketch.remaining s') (r_render r)
          then [mkPainted "Countdown complete" 255] else [])
      ++ paintedGroups (Sketch.remaining s') (Sketch.animatingElements s').
Proof.
  intros s'.
  assert (Ht : Sketch.targetDate s' = Sketch.targetDate s)
    by apply (SketchFacts.sk_step_targetDate (Frame r) s).
  pose proof (sk_draw_canvas r s) as Hcanvas. cbv zeta in Hcanvas.
  fold s' in Hcanvas. rewrite Ht in Hcanvas.
  rewrite Hcanvas. reflexivity.
Qed.

(** The message is on the canvas exactly when the completion test of the
    frame holds. *)
Lemma sk_canvas_message `{HostDate} (r : readings) (s : Sketch.globals) :
  In (mkPainted "Countdown complete" 255) (fst (fst (Sketch.draw r s)))
  <-> completeShown (Sketch.targetDate s)
        (Sketch.remaining (snd (Sketch.draw r s))) (r_render r) = true.
Proof.
  rewrite sk_canvas.
  destruct (completeShown _ _ _); split; intros Hin; try reflexivity.
  - right. left. reflexivity.
  - exfalso. destruct (Sketch.remaining _) as [[[d h] m] sec].
    cbn [app paintedGroups paintedGroup In] in Hin.
    repeat match goal with
           | H : _ \/ _ |- _ => destruct H as [H|H]
           | H : False |- _ => destruct H
           | H : mkPainted (Str.pad _ None) _ = mkPainted _ _ |- _ =>
               symmetry in H; apply pad_is_not_the_message in H; destruct H
           | H : mkPainted _ _ = mkPainted _ _ |- _ => discriminate H
           end.
  - discriminate.
Qed.

(** X10.  In [src/sketch.js] the completion message is on the canvas of a
    frame exactly when, after the sampling step of that frame, the four
    fields are zero and the target is not after the clock reading of the
    frame; the four digit groups then all read "00". *)
Theorem completion_message_iff `{HostDate} (r : readings) (s : Sketch.globals) :
  let s' := snd (Sketch.draw r s) in
  let canvas := fst (fst (Sketch.draw r s)) in
  (In (mkPainted "Countdown complete" 255) canvas
   <-> Sketch.remaining s' = (0, 0, 0, 0) /\ Sketch.targetDate s <= r_render r) /\
  (In (mkPainted "Countdown complete" 255) canvas ->
   map p_text canvas
   = ("Countdown to April 11, " ++ Str.String_ (getFullYear (Sketch.targetDate s)))
       :: "Countdown complete"
       :: ["00"; "Days"; ":"; "00"; "Hours"; ":"; "00"; "Minutes"; ":";
           "00"; "Seconds"]).
Proof.
  intros s' canvas. unfold canvas, s'.
  split.
  - rewrite sk_canvas_message. apply completeShown_true.
  - intros Hin. apply sk_canvas_message in Hin.
    rewrite sk_canvas, Hin.
    apply completeShown_true in Hin as [Hzero _]. rewrite Hzero.
    reflexivity.
Qed.

(** X19.  Once a sample has been taken at or after the target, every
    later frame of [src/sketch.js] shows the completion message, whatever
    the host ran in between, as long as [Date.now()] never goes back. *)
Theorem completion_message_stays `{HostDate}
    (s : Sketch.globals) (now : Z) (es : list event) (r : readings) :
  Sketch.targetDate s <= now ->
  clockMonotone now (es ++ [Frame r]) ->
  Sketch.targetDate s <= r_render r ->
  let s1 := snd (Sketch.updateCountdown now s) in
  In (mkPainted "Countdown complete" 255)
     (fst (fst (Sketch.draw r (Sketch.run es s1)))).
Proof.
  intros Hnow Hclock Hrender s1.
  apply clockMonotone_later in Hclock.
  assert (Ht1 : Sketch.targetDate s1 = Sketch.targetDate s)
    by apply SketchFacts.sk_updateCountdown_targetDate.
  assert (Hlate : Forall (fun t => Sketch.targetDate s1 <= t) (samples (es ++ [Frame r]))).
  { rewrite Ht1. eapply Forall_impl; [|exact Hclock]. cbn beta. intros t Ht. lia. }
  assert (Hzero : Sketch.remaining (Sketch.run (es ++ [Frame r]) s1) = (0, 0, 0, 0)).
  { apply SketchFacts.sk_run_zero; [exact Hlate|].
    apply (SketchFacts.sk_remaining_complete s now Hnow). }
  unfold Sketch.run in Hzero. rewrite fold_left_app in Hzero.
  cbn [fold_left Sketch.step] in Hzero.
  apply sk_canvas_message. apply completeShown_true.
  split; [exact Hzero|].
  change (fold_left (fun s e => Sketch.step e s) es s1) with (Sketch.run es s1).
  rewrite SketchFacts.sk_run_targetDate, Ht1. exact Hrender.
Qed.

Lemma completion_message_stays_witness :
  let s1 := snd (Sketch.updateCountdown 1000 (sketchAt 1000)) in
  In (mkPainted "Countdown complete" 255)
     (fst (fst (@Sketch.draw Gregorian.utc (mkReadings 600 1800 1800)
                  (@Sketch.run Gregorian.utc
                     [Frame (mkReadings 300 1500 1500); Timer (ResetFlag Days)] s1)))).
Proof.
  intros s1.
  apply (@completion_message_stays Gregorian.utc (sketchAt 1000) 1000
           [Frame (mkReadings 300 1500 1500); Timer (ResetFlag Days)]
           (mkReadings 600 1800 1800)).
  - vm_compute. discriminate.
  - unfold clockMonotone. cbn [samples flat_map app r_sample].
    repeat constructor; discriminate.
  - vm_compute. discriminate.
Defined.

End FrameTexts.

(** X11.  In every frame [src/sketch.js] draws after [setup], [draw]
    returns, and the hours, minutes and seconds groups are drawn with
    exactly two characters, the days group with at least two. *)
Theorem groups_have_two_characters `{HostDate}
    (t0 t1 : Z) (es : list event) (r : readings) :
  let s := Sketch.run es (snd (Sketch.setup t0 t1 Sketch.initial)) in
  exists (header : list string) (d h m sec : string),
    map p_text (fst (fst (Sketch.draw r s)))
    = header ++ [d; "Days"; ":"; h; "Hours"; ":"; m; "Minutes"; ":";
                 sec; "Seconds"]%string /\
    (2 <= String.length d)%nat /\
    String.length h = 2%nat /\
    String.length m = 2%nat /\
    String.length sec = 2%nat /\
    snd (fst (Sketch.draw r s)) = Returned.
Proof.
  intros s.
  assert (Hrange : fieldsInRange (Sketch.remaining (snd (Sketch.draw r s)))).
  { change (snd (Sketch.draw r s)) with (Sketch.run [Frame r] s).
    apply sk_run_in_range. unfold s.
    apply sk_run_in_range. rewrite sk_setup_unfold.
    apply sk_updateCountdown_in_range. }
  destruct (sk_draw_shows r s) as [complete [Htexts Hret]].
  destruct (Sketch.remaining (snd (Sketch.draw r s))) as [[[d h] m] sec].
  destruct Hrange as [Hd [Hh [Hm Hs]]].
  eexists. exists (Str.pad d None), (Str.pad h None), (Str.pad m None),
                  (Str.pad sec None).
  split; [exact Htexts|].
  split; [apply pad_at_least_two|].
  split; [apply pad_two_characters; lia|].
  split; [apply pad_two_characters; lia|].
  split; [apply pad_two_characters; lia | exact Hret].
Qed.

(** X12.  In [src/unnamed/part_000] every call of [draw] ends by
    throwing: its [drawTimeUnit] binds a number to the name [scale] and
    then calls it.  The title, and the completion message when due, are on
    the canvas by then, and no digit group ever is; the sampling step has
    already been made. *)
Theorem font_sketch_draw_throws (r : readings) (f : FontSketch.globals) :
  let f' := snd (FontSketch.draw r f) in
  snd (fst (FontSketch.draw r f)) = Threw "TypeError" /\
  (fst (fst (FontSketch.draw r f)) = [mkPainted "100-Day Countdown" 255] \/
   fst (fst (FontSketch.draw r f))
   = [mkPainted "100-Day Countdown" 255; mkPainted "Countdown complete" 255]) /\
  f' = (if FontSketch.updateInterval <=? r_millis r - FontSketch.lastUpdateTime f
        then snd (FontSketch.assign_lastUpdateTime (r_millis r)
                    (snd (FontSketch.updateCountdown (r_sample r) f)))
        else f).
Proof.
  intros f'. pose proof (fs_draw_canvas r f) as Hcanvas.
  cbv zeta in Hcanvas. rewrite Hcanvas. cbn [fst snd].
  split; [reflexivity|].
  split.
  - destruct (completeShown _ _ _); [right | left]; reflexivity.
  - apply FontFacts.fs_draw_globals.
Qed.

(** ** The spacing of the samples *)

Lemma sk_step_watermark `{HostDate} (e : event) (s : Sketch.globals) :
  let s' := Sketch.step e s in
  (Sketch.lastUpdateTime s' = Sketch.lastUpdateTime s /\
   match e with
   | Frame r => r_millis r - Sketch.lastUpdateTime s < 250 /\ s' = s
   | _ => True
   end) \/
  (250 <= Sketch.lastUpdateTime s' - Sketch.lastUpdateTime s /\
   exists r, e = Frame r /\ Sketch.lastUpdateTime s' = r_millis r /\
             250 <= r_millis r - Sketch.lastUpdateTime s).
Proof.
  destruct e as [r|[f]|]; unfold Sketch.step; cbv zeta.
  - rewrite SketchFacts.sk_draw_globals. unfold Sketch.updateInterval.
    destruct (Z.leb_spec 250 (r_millis r - Sketch.lastUpdateTime s)) as [Hge|Hlt].
    + right. cbn [snd Sketch.assign_lastUpdateTime modify Sketch.lastUpdateTime].
      split; [exact Hge|]. exists r. auto.
    + left. auto.
  - left. split; [reflexivity | exact I].
  - left. split; [reflexivity | exact I].
Qed.

Lemma fs_step_watermark (e : event) (f : FontSketch.globals) :
  let f' := FontSketch.step e f in
  (FontSketch.lastUpdateTime f' = FontSketch.lastUpdateTime f /\
   match e with
   | Frame r => r_millis r - FontSketch.lastUpdateTime f < 250 /\ f' = f
   | _ => True
   end) \/
  (250 <= FontSketch.lastUpdateTime f' - FontSketch.lastUpdateTime f /\
   exists r, e = Frame r /\ FontSketch.lastUpdateTime f' = r_millis r /\
             250 <= r_millis r - FontSketch.lastUpdateTime f).
Proof.
  destruct e as [r|[g]|]; unfold FontSketch.step; cbv zeta.
  - rewrite FontFacts.fs_draw_globals. unfold FontSketch.updateInterval.
    destruct (Z.leb_spec 250 (r_millis r - FontSketch.lastUpdateTime f)) as [Hge|Hlt].
    + right.
      cbn [snd FontSketch.assign_lastUpdateTime modify FontSketch.lastUpdateTime].
      split; [exact Hge|]. exists r. auto.
    + left. auto.
  - left. split; [reflexivity | exact I].
  - left. split; [reflexivity | exact I].
Qed.

(** X13.  Samples are at least 250 ms apart on the [millis()] clock, in
    both sketches and whatever that clock does: along any run the watermark
    [lastUpdateTime] never goes back, each frame that calls
    [updateCountdown] moves it forward by at least 250, and so the number of
    such frames times 250 is at most the distance the watermark has
    travelled. *)
Theorem samples_at_least_250_apart `{HostDate}
    (es : list event) (s : Sketch.globals) (f : FontSketch.globals) :
  250 * watermarkMoves es s
    <= Sketch.lastUpdateTime (Sketch.run es s) - Sketch.lastUpdateTime s /\
  250 * fontWatermarkMoves es f
    <= FontSketch.lastUpdateTime (FontSketch.run es f) - FontSketch.lastUpdateTime f /\
  0 <= watermarkMoves es s /\ 0 <= fontWatermarkMoves es f.
Proof.
  assert (Hs : forall es s,
             0 <= watermarkMoves es s /\
             250 * watermarkMoves es s
             <= Sketch.lastUpdateTime (Sketch.run es s) - Sketch.lastUpdateTime s).
  { clear es s. induction es as [|e es IH]; intros s.
    - cbn. lia.
    - unfold Sketch.run in *. cbn [fold_left watermarkMoves].
      specialize (IH (Sketch.step e s)).
      destruct (sk_step_watermark e s) as [[Heq _]|[Hge _]].
      + rewrite Heq, Z.eqb_refl. cbv zeta. rewrite Heq in IH. lia.
      + destruct (Z.eqb_spec (Sketch.lastUpdateTime (Sketch.step e s))
                             (Sketch.lastUpdateTime s)); lia. }
  assert (Hf : forall es f,
             0 <= fontWatermarkMoves es f /\
             250 * fontWatermarkMoves es f
             <= FontSketch.lastUpdateTime (FontSketch.run es f)
                - FontSketch.lastUpdateTime f).
  { clear es f. induction es as [|e es IH]; intros f.
    - cbn. lia.
    - unfold FontSketch.run in *. cbn [fold_left fontWatermarkMoves].
      specialize (IH (FontSketch.step e f)).
      destruct (fs_step_watermark e f) as [[Heq _]|[Hge _]].
      + rewrite Heq, Z.eqb_refl. cbv zeta. rewrite Heq in IH. lia.
      + destruct (Z.eqb_spec (FontSketch.lastUpdateTime (FontSketch.step e f))
                             (FontSketch.lastUpdateTime f)); lia. }
  destruct (Hs es s), (Hf es f). auto.
Qed.

(** A frame moves the watermark exactly when it calls
    [updateCountdown], that is when [millis()] is at least 250 past the
    watermark; a frame that does not leaves every global as it was; timer
    callbacks and resizes never move it. *)
Theorem watermark_moves_iff_sampled `{HostDate}
    (e : event) (s : Sketch.globals) (f : FontSketch.globals) :
  (Sketch.lastUpdateTime (Sketch.step e s) <> Sketch.lastUpdateTime s
   <-> exists r, e = Frame r /\ 250 <= r_millis r - Sketch.lastUpdateTime s) /\
  (FontSketch.lastUpdateTime (FontSketch.step e f) <> FontSketch.lastUpdateTime f
   <-> exists r, e = Frame r /\ 250 <= r_millis r - FontSketch.lastUpdateTime f).
Proof.
  split.
  - destruct (sk_step_watermark e s) as [[Heq Hrest]|[Hge [r [He [Hr Hc]]]]].
    + split; [congruence|].
      intros [r [He Hc]]. subst e. lia.
    + split; [intros _; exists r; auto | lia].
  - destruct (fs_step_watermark e f) as [[Heq Hrest]|[Hge [r [He [Hr Hc]]]]].
    + split; [congruence|].
      intros [r [He Hc]]. subst e. lia.
    + split; [intros _; exists r; auto | lia].
Qed.

(** ** The targets *)

(** X14.  On a host where every instant of a year comes before midnight
    of April 11 of the next year, the target [getTargetDate] of
    [src/sketch.js] resolves is never before the startup instant. *)
Theorem target_never_in_the_past `{HostDate} (t0 : Z) :
  (forall t, t < newDate (getFullYear t + 1) 3 11) ->
  t0 <= Sketch.getTargetDate t0.
Proof.
  intros Hcalendar. unfold Sketch.getTargetDate.
  destruct (Z.ltb_spec (newDate (getFullYear t0) 3 11) t0) as [Hpast|Hle].
  - specialize (Hcalendar t0). lia.
  - exact Hle.
Qed.

Section UTCTargets.

Import Gregorian.

Lemma utc_calendar (t : Z) : t < newDate (getFullYear t + 1) 3 11.
Proof.
  cbn [newDate getFullYear utc]. unfold makeDay, yearFromTime.
  change (3 / 12) with 0. change (3 mod 12 + 1) with 4.
  pose proof (year_ends_before_next_april (t / msPerDay)) as Hnext.
  destruct (civil_from_days (t / msPerDay)) as [[y m] d].
  rewrite Z.add_0_r.
  unfold msPerDay in *. Z.to_euclidean_division_equations; lia.
Qed.

Lemma target_never_in_the_past_witness :
  1744329600001 <= @Sketch.getTargetDate utc 1744329600001.
Proof.
  apply (@target_never_in_the_past utc 1744329600001).
  exact utc_calendar.
Defined.

(** 1 January of year [y] is day 1 of month 1 of year [y]. *)
Lemma january1_civil (y : Z) :
  civil_from_days (days_from_civil y 1 1) = (y, 1, 1).
Proof.
  unfold days_from_civil.
  change (1 <=? 2) with true. change (2 <? 1) with false. cbv iota.
  change ((153 * (1 + 9) + 2) / 5 + 1 - 1) with 306.
  set (era := (y - 1) / 400).
  set (yoe := y - 1 - era * 400).
  assert (Hyoe : 0 <= yoe < 400)
    by (unfold yoe, era; Z.to_euclidean_division_equations; lia).
  set (doe := yoe * 365 + yoe / 4 - yoe / 100 + 306).
  assert (Hdoe : 0 <= doe < 146097)
    by (unfold doe; Z.to_euclidean_division_equations; lia).
  unfold civil_from_days.
  replace (era * 146097 + doe - 719468 + 719468) with (doe + era * 146097) by lia.
  rewrite Z.div_add by lia. rewrite (Z.div_small doe) by lia.
  replace (doe + era * 146097 - (0 + era) * 146097) with doe by lia.
  assert (Hy : (doe - doe / 1460 + doe / 36524 - doe / 146096) / 365 = yoe)
    by (unfold doe; Z.to_euclidean_division_equations; lia).
  rewrite Hy. fold doe.
  replace (doe - (365 * yoe + yoe / 4 - yoe / 100)) with 306 by (unfold doe; lia).
  change ((5 * 306 + 2) / 153) with 10.
  cbn.
  replace (yoe + era * 400 + 1) with y by (unfold yoe; lia).
  reflexivity.
Qed.

(** A hundred days after 1 January is 11 April, or 10 April in a leap
    year. *)
Lemma hundred_days_after_january1 (y : Z) :
  days_from_civil y 1 101
  = days_from_civil y 4 (if isLeapYear y then 10 else 11).
Proof.
  unfold days_from_civil, isLeapYear.
  change (1 <=? 2) with true. change (2 <? 1) with false.
  change (4 <=? 2) with false. change (2 <? 4) with true. cbv iota.
  destruct (Z.eqb_spec (y mod 4) 0), (Z.eqb_spec (y mod 100) 0),
           (Z.eqb_spec (y mod 400) 0); cbn [negb orb andb];
    Z.to_euclidean_division_equations; lia.
Qed.

(** A day of April of year [y] is that day of month 4 of year [y]. *)
Lemma april_civil (y d : Z) :
  1 <= d <= 30 ->
  civil_from_days (days_from_civil y 4 d) = (y, 4, d).
Proof.
  intros Hd. unfold days_from_civil.
  change (4 <=? 2) with false. change (2 <? 4) with true. cbv iota.
  change ((153 * (4 - 3) + 2) / 5) with 31.
  set (era := y / 400).
  set (yoe := y - era * 400).
  assert (Hyoe : 0 <= yoe < 400)
    by (unfold yoe, era; Z.to_euclidean_division_equations; lia).
  set (doe := yoe * 365 + yoe / 4 - yoe / 100 + (31 + d - 1)).
  assert (Hdoe : 0 <= doe < 146097)
    by (unfold doe; Z.to_euclidean_division_equations; lia).
  unfold civil_from_days.
  replace (era * 146097 + doe - 719468 + 719468) with (doe + era * 146097) by lia.
  rewrite Z.div_add by lia. rewrite (Z.div_small doe) by lia.
  replace (doe + era * 146097 - (0 + era) * 146097) with doe by lia.
  assert (Hy : (doe - doe / 1460 + doe / 36524 - doe / 146096) / 365 = yoe)
    by (unfold doe; Z.to_euclidean_division_equations; lia).
  rewrite Hy. fold doe.
  replace (doe - (365 * yoe + yoe / 4 - yoe / 100)) with (30 + d)
    by (unfold doe; lia).
  assert (Hmp : (5 * (30 + d) + 2) / 153 = 1)
    by (Z.to_euclidean_division_equations; lia).
  rewrite Hmp.
  change (1 <? 10) with true. cbv iota.
  change (1 + 3 <=? 2) with false. cbv iota.
  change ((153 * 1 + 2) / 5) with 31.
  repeat f_equal; unfold yoe; lia.
Qed.

(** X15.  On a host whose local time is UTC, the target
    [getTargetDate] of [src/unnamed/part_000] resolves is midnight of the
    day 100 days after 1 January of the current year: 11 April in a common
    year, 10 April in a leap year. *)
Theorem font_sketch_target_utc (t0 : Z) :
  let y := yearFromTime t0 in
  let target := @FontSketch.getTargetDate utc t0 in
  target = newDate y 0 1 + 100 * msPerDay /\
  target mod msPerDay = 0 /\
  civil_from_days (target / msPerDay)
  = (y, 4, if isLeapYear y then 10 else 11).
Proof.
  intros y target.
  assert (Hjan : newDate y 0 1 = days_from_civil y 1 1 * msPerDay).
  { cbn [newDate utc]. unfold makeDay.
    change (0 / 12) with 0. change (0 mod 12 + 1) with 1.
    rewrite Z.add_0_r. reflexivity. }
  assert (Hciv : civil_from_days (newDate y 0 1 / msPerDay) = (y, 1, 1)).
  { rewrite Hjan, Z.div_mul by (unfold msPerDay; lia). apply january1_civil. }
  assert (Htarget : target = days_from_civil y 1 101 * msPerDay).
  { unfold target, FontSketch.getTargetDate.
    cbn [getFullYear getDate setDate utc]. fold y.
    unfold dateFromTime, yearFromTime, monthFromTime. rewrite Hciv.
    unfold makeDay.
    change ((1 - 1) / 12) with 0. change ((1 - 1) mod 12 + 1) with 1.
    change (1 + 100) with 101.
    rewrite Z.add_0_r, Hjan, Z.mod_mul by (unfold msPerDay; lia).
    lia. }
  split.
  { rewrite Htarget, Hjan. unfold days_from_civil.
    change (1 <=? 2) with true. change (2 <? 1) with false. cbv iota.
    lia. }
  split.
  { rewrite Htarget. apply Z.mod_mul. unfold msPerDay; lia. }
  rewrite Htarget, Z.div_mul by (unfold msPerDay; lia).
  rewrite hundred_days_after_january1.
  apply april_civil. destruct (isLeapYear y); lia.
Qed.

End UTCTargets.

(** ** [setup] of [src/unnamed/part_000] *)

(** X16.  [getTargetDate] of [src/unnamed/part_000] does not roll over
    to the next year, so [setup] can run at or after the target.  The first
    sample then reports completion at once: the fields are zero, no flag is
    raised, no timer is scheduled, the recorded values stay at the sentinel
    -1, and the font stays the first of the list. *)
Theorem font_sketch_late_start `{HostDate} (fs : list string) (t0 t1 : Z) :
  FontSketch.getTargetDate t0 <= t1 ->
  snd (FontSketch.setup t0 t1 (FontSketch.initialWith fs))
  = FontSketch.mkGlobals fs (FontSketch.getTargetDate t0) 0 (-1)
      (FontSketch.item fs 0) 0 0 0 0 (-1) (-1) (-1) (-1)
      (mkAnimating false false false false) 0 [].
Proof.
  intros Hlate. rewrite fs_setup_unfold.
  rewrite FontFacts.fs_updateCountdown_complete.
  - reflexivity.
  - change (FontSketch.targetDate (fontSketchAt fs (FontSketch.getTargetDate t0)))
      with (FontSketch.getTargetDate t0). lia.
Qed.

(** On the UTC host, a start on 1 June 2025 finds the target, 11 April
    2025, behind it. *)
Lemma font_sketch_late_start_witness :
  FontSketch.remaining
    (snd (@FontSketch.setup Gregorian.utc 1748736000000 1748736000005
            (FontSketch.initialWith FontSketch.fontList)))
  = (0, 0, 0, 0).
Proof.
  rewrite (@font_sketch_late_start Gregorian.utc FontSketch.fontList
             1748736000000 1748736000005).
  - reflexivity.
  - vm_compute. discriminate.
Defined.

Lemma sentinel_differs (diff : Z) :
  0 < diff ->
  (-1 !== JS.floor_div diff (1000 * 60 * 60 * 24)) = true /\
  (-1 !== JS.floor_div (JS.rem diff (1000 * 60 * 60 * 24)) (1000 * 60 * 60)) = true /\
  (-1 !== JS.floor_div (JS.rem diff (1000 * 60 * 60)) (1000 * 60)) = true /\
  (-1 !== JS.floor_div (JS.rem diff (1000 * 60)) 1000) = true.
Proof.
  intros Hpos.
  pose proof (source_decomposition diff Hpos) as Hsrc.
  pose proof (decomposition_nonneg diff Hpos) as Hnn.
  rewrite <- Hsrc in Hnn. destruct Hnn as [Hd [Hh [Hm Hs]]].
  repeat split; apply strict_neq_true; lia.
Qed.

(** X17.  When [setup] runs before the target with at least two fonts,
    its own call of [updateCountdown] already advances the rotation: the
    first frame is drawn with the second font of the list, all four flags
    are raised and four resets are scheduled. *)
Theorem font_sketch_first_font `{HostDate} (fs : list string) (t0 t1 : Z) :
  t1 < FontSketch.getTargetDate t0 ->
  2 <= Z.of_nat (List.length fs) ->
  let s := snd (FontSketch.setup t0 t1 (FontSketch.initialWith fs)) in
  FontSketch.currentFontIndex s = 1 /\
  FontSketch.previousFontIndex s = 1 /\
  FontSketch.currentFont s = FontSketch.item fs 1 /\
  FontSketch.animatingElements s = mkAnimating true true true true /\
  FontSketch.timers s
  = [(ResetFlag Seconds, 200); (ResetFlag Minutes, 200);
     (ResetFlag Hours, 200); (ResetFlag Days, 200)].
Proof.
  intros Hearly Hlen s. unfold s. rewrite fs_setup_unfold.
  set (T := FontSketch.getTargetDate t0) in *.
  assert (Hpos : 0 < FontSketch.targetDate (fontSketchAt fs T) - t1)
    by (change (FontSketch.targetDate (fontSketchAt fs T)) with T; lia).
  rewrite FontFacts.fs_updateCountdown_running by exact Hpos.
  change (FontSketch.targetDate (fontSketchAt fs T)) with T.
  change (FontSketch.prevDays (fontSketchAt fs T)) with (-1).
  change (FontSketch.prevHours (fontSketchAt fs T)) with (-1).
  change (FontSketch.prevMinutes (fontSketchAt fs T)) with (-1).
  change (FontSketch.prevSeconds (fontSketchAt fs T)) with (-1).
  change (FontSketch.fonts (fontSketchAt fs T)) with fs.
  change (FontSketch.currentFontIndex (fontSketchAt fs T)) with 0.
  change (FontSketch.previousFontIndex (fontSketchAt fs T)) with (-1).
  change (FontSketch.animatingElements (fontSketchAt fs T))
    with (mkAnimating false false false false).
  change (FontSketch.timers (fontSketchAt fs T)) with (@nil timeout).
  destruct (sentinel_differs (T - t1) ltac:(lia)) as [Hd [Hh [Hm Hs]]].
  rewrite Hd, Hh, Hm, Hs.
  cbn [snd orb FontSketch.currentFontIndex FontSketch.previousFontIndex
       FontSketch.currentFont FontSketch.animatingElements FontSketch.timers
       pulseFlag pulseTimer set_flag a_days a_hours a_minutes a_seconds].
  assert (Hnext : nextIndex (Z.of_nat (List.length fs)) 0 (-1) = 1).
  { unfold nextIndex. change (0 + 1) with 1.
    rewrite rem_is_mod, Z.mod_small by lia.
    reflexivity. }
  rewrite Hnext. repeat split; reflexivity.
Qed.

Lemma font_sketch_first_font_witness :
  FontSketch.currentFont
    (snd (@FontSketch.setup Gregorian.utc 1735689600000 1735689600005
            (FontSketch.initialWith FontSketch.fontList)))
  = Some "Space Mono"%string.
Proof.
  refine (proj1 (proj2 (proj2
            (@font_sketch_first_font Gregorian.utc FontSketch.fontList
               1735689600000 1735689600005 _ _)))).
  - vm_compute. reflexivity.
  - vm_compute. discriminate.
Defined.

(** ** Pulses end *)

Lemma removeAt_keeps {A : Type} (k : nat) (l : list A) (x y : A) :
  nth_error l k = Some y -> x <> y -> In x l -> In x (removeAt k l).
Proof.
  revert k. induction l as [|z l IH]; intros k Hnth Hne Hin.
  - destruct Hin.
  - destruct k as [|k]; cbn [removeAt nth_error] in *.
    + injection Hnth as Hz. destruct Hin as [Hx|Hx]; [congruence | exact Hx].
    + destruct Hin as [Hx|Hx]; [left; exact Hx | right; eapply IH; eauto].
Qed.

(** A call of [updateCountdown] raises no flag without setting its
    reset. *)
Lemma sk_updateCountdown_covers (now : Z) (s : Sketch.globals) (f : field) :
  let s' := snd (Sketch.updateCountdown now s) in
  flag f (Sketch.animatingElements s') = true ->
  flag f (Sketch.animatingElements s) = true \/
  In (ResetFlag f) (callbacksSet (Sketch.timers s) (Sketch.timers s')).
Proof.
  intros s'. unfold s'.
  destruct (Z.le_gt_cases (Sketch.targetDate s - now) 0) as [Hle|Hgt].
  - rewrite SketchFacts.sk_updateCountdown_complete by lia.
    cbn [snd Sketch.animatingElements]. auto.
  - rewrite SketchFacts.sk_updateCountdown_running by lia.
    cbn [snd Sketch.animatingElements Sketch.timers].
    unfold callbacksSet. rewrite scheduled_pulses, pulses_flag.
    intros Hflag. apply orb_prop in Hflag as [Hchanged|Hold]; [right | left; exact Hold].
    rewrite <- in_rev.
    apply (in_map fst _ (ResetFlag f, 200)).
    apply pulses_timer. exact Hchanged.
Qed.

Lemma hostStep_covered `{HostDate} (e : hostEvent) (w : world) :
  pulsesCovered w -> pulsesCovered (hostStep e w).
Proof.
  intros Hcov f. destruct e as [r|k|]; cbn [hostStep].
  - cbv zeta. cbn [w_globals w_pending]. unfold Sketch.step.
    rewrite SketchFacts.sk_draw_globals.
    destruct (Sketch.updateInterval <=? r_millis r - Sketch.lastUpdateTime (w_globals w)).
    + cbn [snd Sketch.assign_lastUpdateTime modify Sketch.animatingElements
           Sketch.timers].
      intros Hflag. apply in_or_app.
      destruct (sk_updateCountdown_covers (r_sample r) (w_globals w) f Hflag)
        as [Hold|Hnew]; [left; apply Hcov; exact Hold | right; exact Hnew].
    + intros Hflag. apply in_or_app. left. apply Hcov. exact Hflag.
  - destruct (nth_error (w_pending w) k) as [[g]|] eqn:Hnth; [|apply Hcov].
    cbn [w_globals w_pending Sketch.step Sketch.runCallback snd
         Sketch.assign_animating modify Sketch.animatingElements].
    intros Hflag.
    assert (Hfg : f <> g).
    { intros Heq. subst g.
      destruct f, (Sketch.animatingElements (w_globals w)); discriminate Hflag. }
    apply (removeAt_keeps k _ _ (ResetFlag g) Hnth); [congruence|].
    apply Hcov.
    destruct f, g, (Sketch.animatingElements (w_globals w));
      try congruence; exact Hflag.
  - exact (Hcov f).
Qed.

Lemma worldAfterSetup_covered `{HostDate} (t0 t1 : Z) :
  pulsesCovered (worldAfterSetup t0 t1).
Proof.
  intros f. unfold worldAfterSetup. cbv zeta. cbn [w_globals w_pending].
  rewrite sk_setup_unfold. intros Hflag.
  destruct (sk_updateCountdown_covers t1 _ f Hflag) as [Hold|Hnew].
  - destruct f; discriminate Hold.
  - exact Hnew.
Qed.

(** X18.  No pulse of [src/sketch.js] is left up: in every world the host
    can reach after [setup], by frames, resizes and pending callbacks run
    in any order, each flag that is up still has its reset pending; so once
    the pending callbacks have all run, every flag is down. *)
Theorem no_pulse_left_up `{HostDate} (t0 t1 : Z) (es : list hostEvent) :
  let w := hostRun es (worldAfterSetup t0 t1) in
  pulsesCovered w /\
  (w_pending w = [] ->
   Sketch.animatingElements (w_globals w) = mkAnimating false false false false).
Proof.
  intros w.
  assert (Hcov : pulsesCovered w).
  { unfold w. generalize (worldAfterSetup_covered t0 t1).
    generalize (worldAfterSetup t0 t1).
    induction es as [|e es IH]; intros w0 H0.
    - exact H0.
    - unfold hostRun in *. cbn [fold_left]. apply IH.
      apply hostStep_covered. exact H0. }
  split; [exact Hcov|].
  intros Hempty.
  assert (Hdown : forall f, flag f (Sketch.animatingElements (w_globals w)) = false).
  { intros f. destruct (flag f _) eqn:Hf; [|reflexivity].
    apply Hcov in Hf. rewrite Hempty in Hf. destruct Hf. }
  pose proof (Hdown Days) as Hd. pose proof (Hdown Hours) as Hh.
  pose proof (Hdown Minutes) as Hm. pose proof (Hdown Seconds) as Hs.
  destruct (Sketch.animatingElements (w_globals w)) as [b1 b2 b3 b4].
  cbn in Hd, Hh, Hm, Hs. congruence.
Qed.

(** ** [src/sketch.js] inside [src/unnamed/part_000] *)

Lemma simulation_updateCountdown (now : Z) (f : FontSketch.globals) :
  fst (FontSketch.updateCountdown now f)
  = fst (Sketch.updateCountdown now (withoutFonts f)) /\
  withoutFonts (snd (FontSketch.updateCountdown now f))
  = snd (Sketch.updateCountdown now (withoutFonts f)).
Proof.
  destruct (Z.le_gt_cases (FontSketch.targetDate f - now) 0) as [Hle|Hgt].
  - rewrite FontFacts.fs_updateCountdown_complete by lia.
    rewrite SketchFacts.sk_updateCountdown_complete
      by (cbn [withoutFonts Sketch.targetDate]; lia).
    split; reflexivity.
  - rewrite FontFacts.fs_updateCountdown_running by lia.
    rewrite SketchFacts.sk_updateCountdown_running
      by (cbn [withoutFonts Sketch.targetDate]; lia).
    split; reflexivity.
Qed.

Lemma simulation_step `{HostDate} (e : event) (f : FontSketch.globals) :
  withoutFonts (FontSketch.step e f) = Sketch.step e (withoutFonts f).
Proof.
  destruct e as [r|[g]|]; unfold FontSketch.step, Sketch.step.
  - rewrite FontFacts.fs_draw_globals, SketchFacts.sk_draw_globals.
    change (Sketch.lastUpdateTime (withoutFonts f)) with (FontSketch.lastUpdateTime f).
    change Sketch.updateInterval with FontSketch.updateInterval.
    destruct (FontSketch.updateInterval <=? r_millis r - FontSketch.lastUpdateTime f);
      [|reflexivity].
    rewrite <- (proj2 (simulation_updateCountdown (r_sample r) f)).
    reflexivity.
  - reflexivity.
  - reflexivity.
Qed.

(** X20.  Dropping the font variables turns [src/unnamed/part_000] into
    [src/sketch.js]: [updateCountdown] returns the same result and leaves
    the same fields, recorded values, flags and scheduled timers in both,
    and so does any run of frames, timer callbacks and resizes. *)
Theorem font_sketch_simulates_sketch `{HostDate}
    (now : Z) (es : list event) (f : FontSketch.globals) :
  fst (FontSketch.updateCountdown now f)
  = fst (Sketch.updateCountdown now (withoutFonts f)) /\
  withoutFonts (snd (FontSketch.updateCountdown now f))
  = snd (Sketch.updateCountdown now (withoutFonts f)) /\
  withoutFonts (FontSketch.run es f) = Sketch.run es (withoutFonts f).
Proof.
  destruct (simulation_updateCountdown now f) as [Hres Hst].
  split; [exact Hres|]. split; [exact Hst|].
  revert f Hres Hst. induction es as [|e es IH]; intros f _ _.
  - reflexivity.
  - unfold FontSketch.run, Sketch.run in *. cbn [fold_left].
    rewrite <- simulation_step.
    destruct (simulation_updateCountdown now (FontSketch.step e f)) as [H1 H2].
    apply IH; assumption.
Qed.

(** * The font cycle and the throttle, over both sketches *)

(** ** The selections of [getNextFont] *)

(** A tick that finds a changed field leaves the font variables as
    [getNextFont] sets them; any other tick, at or after the target
    included, leaves them alone. *)
Lemma tick_selection (s : FontSketch.globals) (now : Z) :
  let s' := snd (FontSketch.updateCountdown now s) in
  (hasChanged now s = true ->
   FontSketch.currentFontIndex s'
   = FontSketch.currentFontIndex (snd (FontSketch.getNextFont s)) /\
   FontSketch.previousFontIndex s'
   = FontSketch.previousFontIndex (snd (FontSketch.getNextFont s)) /\
   FontSketch.currentFont s' = fst (FontSketch.getNextFont s)) /\
  (hasChanged now s = false ->
   FontSketch.currentFontIndex s' = FontSketch.currentFontIndex s /\
   FontSketch.previousFontIndex s' = FontSketch.previousFontIndex s /\
   FontSketch.currentFont s' = FontSketch.currentFont s).
Proof.
  intros s'. unfold s'. rewrite FontFacts.fs_getNextFont.
  cbn [fst snd FontSketch.currentFontIndex FontSketch.previousFontIndex].
  destruct (Z_lt_ge_dec now (FontSketch.targetDate s)) as [Hlt|Hge].
  - assert (Hb : hasChanged now s
                 = ((FontSketch.prevDays s
                     !== FontSketch.days (snd (FontSketch.updateCountdown now s)))
                    || (FontSketch.prevHours s
                        !== FontSketch.hours (snd (FontSketch.updateCountdown now s)))
                    || (FontSketch.prevMinutes s
                        !== FontSketch.minutes (snd (FontSketch.updateCountdown now s)))
                    || (FontSketch.prevSeconds s
                        !== FontSketch.seconds (snd (FontSketch.updateCountdown now s))))).
    { unfold hasChanged.
      destruct (Z.ltb_spec 0 (FontSketch.targetDate s - now)); [|lia]. reflexivity. }
    rewrite Hb.
    rewrite FontFacts.fs_updateCountdown_running by lia.
    cbn [snd FontSketch.days FontSketch.hours FontSketch.minutes
         FontSketch.seconds FontSketch.currentFont FontSketch.currentFontIndex
         FontSketch.previousFontIndex].
    split; intros Hc; rewrite Hc; auto.
  - assert (Hb : hasChanged now s = false).
    { unfold hasChanged.
      destruct (Z.ltb_spec 0 (FontSketch.targetDate s - now)); [lia|]. reflexivity. }
    rewrite Hb.
    rewrite FontFacts.fs_updateCountdown_complete by lia.
    cbn [snd FontSketch.currentFont FontSketch.currentFontIndex
         FontSketch.previousFontIndex].
    split; [discriminate | auto].
Qed.

(** From a state of the invariant, a selection moves to the cyclic
    successor of the index, which is another index. *)
Lemma selection_moves (s : FontSketch.globals) (now : Z) :
  2 <= Z.of_nat (List.length (FontSketch.fonts s)) ->
  fontInvariant s ->
  hasChanged now s = true ->
  let s' := snd (FontSketch.updateCountdown now s) in
  FontSketch.currentFontIndex s'
  = JS.rem (FontSketch.currentFontIndex s + 1)
           (Z.of_nat (List.length (FontSketch.fonts s))) /\
  FontSketch.currentFontIndex s' <> FontSketch.currentFontIndex s.
Proof.
  intros Hlen Hinv Hchanged s'.
  pose proof (tick_changed_index s now Hlen Hinv Hchanged) as Hidx.
  fold s' in Hidx. destruct Hinv as [Hi _].
  split.
  - rewrite Hidx. symmetry. apply rem_is_mod; lia.
  - rewrite Hidx.
    destruct (successor_values _ _ Hlen Hi) as [[E B]|[E B]]; rewrite E; lia.
Qed.

Lemma noConsecutiveRepeat_cons {A : Type} (x y : A) (l : list A) :
  x <> y -> noConsecutiveRepeat (y :: l) -> noConsecutiveRepeat (x :: y :: l).
Proof.
  intros Hne Hrest. cbn [noConsecutiveRepeat]. split; assumption.
Qed.

(** The indices selected never show the same index twice in a row. *)
Lemma selections_no_repeat (nows : list Z) (s : FontSketch.globals) :
  2 <= Z.of_nat (List.length (FontSketch.fonts s)) ->
  fontInvariant s ->
  noConsecutiveRepeat (FontSketch.currentFontIndex s :: selectionsAlong nows s).
Proof.
  revert s. induction nows as [|now rest IH]; intros s Hlen Hinv.
  - exact I.
  - pose proof (FontFacts.fs_updateCountdown_constants s now) as [_ Hfonts].
    pose proof (tick_invariant s now Hlen Hinv) as Hinv'.
    specialize (IH (snd (FontSketch.updateCountdown now s))).
    rewrite Hfonts in IH. specialize (IH Hlen Hinv').
    cbn [selectionsAlong].
    destruct (hasChanged now s) eqn:Hchanged; cbn [app].
    + apply noConsecutiveRepeat_cons; [|exact IH].
      intros Heq.
      apply (proj2 (selection_moves s now Hlen Hinv Hchanged)).
      symmetry. exact Heq.
    + rewrite (proj1 (proj2 (tick_selection s now) Hchanged)) in IH.
      exact IH.
Qed.

(** Nor, when neighbours in the list differ, do the fonts at them. *)
Lemma selected_fonts_no_repeat (nows : list Z) (s : FontSketch.globals) :
  2 <= Z.of_nat (List.length (FontSketch.fonts s)) ->
  fontInvariant s ->
  neighboursDiffer (FontSketch.fonts s) ->
  noConsecutiveRepeat
    (FontSketch.item (FontSketch.fonts s) (FontSketch.currentFontIndex s)
       :: map (FontSketch.item (FontSketch.fonts s)) (selectionsAlong nows s)).
Proof.
  revert s. induction nows as [|now rest IH]; intros s Hlen Hinv Hdiffer.
  - exact I.
  - pose proof (FontFacts.fs_updateCountdown_constants s now) as [_ Hfonts].
    pose proof (tick_invariant s now Hlen Hinv) as Hinv'.
    specialize (IH (snd (FontSketch.updateCountdown now s))).
    rewrite Hfonts in IH. specialize (IH Hlen Hinv' Hdiffer).
    cbn [selectionsAlong].
    destruct (hasChanged now s) eqn:Hchanged; cbn [app map].
    + apply noConsecutiveRepeat_cons; [|exact IH].
      rewrite (proj1 (selection_moves s now Hlen Hinv Hchanged)).
      apply Hdiffer. apply Hinv.
    + rewrite (proj1 (proj2 (tick_selection s now) Hchanged)) in IH.
      exact IH.
Qed.

(** When every tick finds a changed field, every tick selects, and the
    font in use after it is the one selected. *)
Lemma selections_every_tick (nows : list Z) (s : FontSketch.globals) :
  2 <= Z.of_nat (List.length (FontSketch.fonts s)) ->
  fontInvariant s ->
  everyTickChanges nows s ->
  List.length (selectionsAlong nows s) = List.length nows /\
  fontsAlong nows s
  = map (FontSketch.item (FontSketch.fonts s)) (selectionsAlong nows s).
Proof.
  revert s. induction nows as [|now rest IH]; intros s Hlen Hinv Hticks.
  - split; reflexivity.
  - destruct Hticks as [Hchanged Hrest].
    pose proof (FontFacts.fs_updateCountdown_constants s now) as [_ Hfonts].
    pose proof (tick_invariant s now Hlen Hinv) as Hinv'.
    specialize (IH (snd (FontSketch.updateCountdown now s))).
    rewrite Hfonts in IH. destruct (IH Hlen Hinv' Hrest) as [IHlen IHfonts].
    cbn [selectionsAlong fontsAlong]. rewrite Hchanged. cbn [app map List.length].
    split; [congruence|].
    rewrite IHfonts. f_equal.
    destruct Hinv' as [_ [_ Hfont]]. rewrite Hfont, Hfonts. reflexivity.
Qed.

Lemma fontList_neighboursDiffer : neighboursDiffer FontSketch.fontList.
Proof.
  apply NoDup_neighboursDiffer.
  - vm_compute. repeat constructor.
  - exact fontList_NoDup.
Defined.

(** C5.  For any font list of length at least 2, and for every sequence
    of ticks (calls of [updateCountdown]) from a state the sketch can be in
    after [setup]: the selections of [getNextFont] never show the same entry
    of the list twice in a row, and the first of them differs from the entry
    in use before it.  A tick that finds no changed field, and any tick at
    or after the target, selects nothing.  When every tick finds a changed
    field, every tick selects and the font in use after it is the one
    selected.  The names selected differ as well whenever every entry of the
    list differs from the next one and the last from the first, as in the
    list the sketch declares. *)
Theorem C5_font_cycle_no_repeat (s : FontSketch.globals) (nows : list Z) :
  2 <= Z.of_nat (List.length (FontSketch.fonts s)) ->
  fontInvariant s ->
  noConsecutiveRepeat (FontSketch.currentFontIndex s :: selectionsAlong nows s) /\
  (everyTickChanges nows s ->
   List.length (selectionsAlong nows s) = List.length nows /\
   fontsAlong nows s
   = map (FontSketch.item (FontSketch.fonts s)) (selectionsAlong nows s)) /\
  (neighboursDiffer (FontSketch.fonts s) \/ FontSketch.fonts s = FontSketch.fontList ->
   noConsecutiveRepeat
     (FontSketch.currentFont s
        :: map (FontSketch.item (FontSketch.fonts s)) (selectionsAlong nows s))) /\
  (forall now, FontSketch.targetDate s <= now -> selectionsAlong [now] s = []).
Proof.
  intros Hlen Hinv.
  split; [apply selections_no_repeat; assumption|].
  split; [apply selections_every_tick; assumption|].
  split.
  - intros Hdiffer.
    assert (Hd : neighboursDiffer (FontSketch.fonts s)).
    { destruct Hdiffer as [Hd|Hlist]; [exact Hd|].
      rewrite Hlist. exact fontList_neighboursDiffer. }
    replace (FontSketch.currentFont s)
      with (FontSketch.item (FontSketch.fonts s) (FontSketch.currentFontIndex s))
      by (symmetry; apply Hinv).
    apply selected_fonts_no_repeat; assumption.
  - intros now Hlate. cbn [selectionsAlong]. unfold hasChanged.
    destruct (Z.ltb_spec 0 (FontSketch.targetDate s - now)); [lia|].
    reflexivity.
Qed.

(** The sketch's own list and a target ten seconds away: ticks at 0 s, at
    0.25 s (the same second), at 1 s, at the target and after it select the
    second, then the third font of the list, and nothing more. *)
Lemma C5_font_cycle_no_repeat_witness :
  let s := fontSketchAt FontSketch.fontList 10000 in
  selectionsAlong [0; 250; 1000; 10000; 12000] s = [1; 2] /\
  noConsecutiveRepeat
    (FontSketch.currentFontIndex s :: selectionsAlong [0; 250; 1000; 10000; 12000] s).
Proof.
  intros s. split; [vm_compute; reflexivity|].
  refine (proj1 (C5_font_cycle_no_repeat s [0; 250; 1000; 10000; 12000] _ _)).
  - vm_compute. discriminate.
  - apply fontInvariant_setup. discriminate.
Defined.

(** ** The throttle and the renderer *)

(** C8.  In [draw] (of both sketches) [updateCountdown] is called on a
    frame exactly when at least 250 ms have passed on the [millis()] clock
    since the watermark [lastUpdateTime], which is then moved to the
    current reading; on every other frame the globals, and with them the
    sampled fields, are left as they were.  [src/sketch.js] then draws the
    digit groups of those same fields.  [src/unnamed/part_000] does not: its
    [drawTimeUnit] throws before it draws a value, so the frame ends with
    the title, and the completion message when due, and no field on the
    canvas. *)
Theorem C8_sampling_throttle `{HostDate}
    (r : readings) (s : Sketch.globals) (f : FontSketch.globals) :
  (250 <= r_millis r - Sketch.lastUpdateTime s ->
     snd (Sketch.draw r s)
     = snd (Sketch.assign_lastUpdateTime (r_millis r)
              (snd (Sketch.updateCountdown (r_sample r) s))) /\
     Sketch.lastUpdateTime (snd (Sketch.draw r s)) = r_millis r) /\
  (r_millis r - Sketch.lastUpdateTime s < 250 ->
     snd (Sketch.draw r s) = s /\
     snd (fst (Sketch.draw r s)) = Returned /\
     exists header,
       map p_text (fst (fst (Sketch.draw r s)))
       = header ++ digitGroups (Sketch.remaining s)) /\
  (250 <= r_millis r - FontSketch.lastUpdateTime f ->
     snd (FontSketch.draw r f)
     = snd (FontSketch.assign_lastUpdateTime (r_millis r)
              (snd (FontSketch.updateCountdown (r_sample r) f))) /\
     FontSketch.lastUpdateTime (snd (FontSketch.draw r f)) = r_millis r) /\
  (r_millis r - FontSketch.lastUpdateTime f < 250 ->
     snd (FontSketch.draw r f) = f /\
     snd (fst (FontSketch.draw r f)) = Threw "TypeError" /\
     (fst (fst (FontSketch.draw r f)) = [mkPainted "100-Day Countdown" 255] \/
      fst (fst (FontSketch.draw r f))
      = [mkPainted "100-Day Countdown" 255; mkPainted "Countdown complete" 255])).
Proof.
  pose proof (SketchFacts.sk_draw_globals r s) as Hs.
  pose proof (FontFacts.fs_draw_globals r f) as Hf.
  unfold Sketch.updateInterval in Hs. unfold FontSketch.updateInterval in Hf.
  repeat apply conj.
  - intros Hge.
    destruct (Z.leb_spec 250 (r_millis r - Sketch.lastUpdateTime s)); [|lia].
    rewrite Hs. split; reflexivity.
  - intros Hlt.
    destruct (Z.leb_spec 250 (r_millis r - Sketch.lastUpdateTime s)); [lia|].
    split; [exact Hs|].
    destruct (sk_draw_shows r s) as [complete [Hshow Hret]].
    split; [exact Hret|].
    rewrite Hs in Hshow. eexists. exact Hshow.
  - intros Hge.
    destruct (Z.leb_spec 250 (r_millis r - FontSketch.lastUpdateTime f)); [|lia].
    rewrite Hf. split; reflexivity.
  - intros Hlt.
    destruct (Z.leb_spec 250 (r_millis r - FontSketch.lastUpdateTime f)); [lia|].
    split; [exact Hf|].
    pose proof (fs_draw_canvas r f) as Hcanvas. cbv zeta in Hcanvas.
    rewrite Hcanvas. cbn [fst snd].
    split; [reflexivity|].
    destruct (completeShown _ _ _); [right | left]; reflexivity.
Qed.

(** A target 10 s away, sampled at 9 s to go by the frame at 300 ms.  The
    frame at 400 ms does not sample in either sketch.  [src/sketch.js]
    draws the fields of the earlier sample again; [src/unnamed/part_000]
    throws with the title alone on the canvas. *)
Lemma C8_sampling_throttle_witness :
  let s := snd (@Sketch.draw Gregorian.utc (mkReadings 300 1000 1000) (sketchAt 10000)) in
  let f := snd (FontSketch.draw (mkReadings 300 1000 1000)
                  (fontSketchAt FontSketch.fontList 10000)) in
  let r := mkReadings 400 1100 1100 in
  (snd (@Sketch.draw Gregorian.utc r s) = s /\
   snd (fst (@Sketch.draw Gregorian.utc r s)) = Returned /\
   exists header,
     map p_text (fst (fst (@Sketch.draw Gregorian.utc r s)))
     = header ++ ["00"; "Days"; ":"; "00"; "Hours"; ":"; "00"; "Minutes"; ":";
                  "09"; "Seconds"]%string) /\
  (snd (FontSketch.draw r f) = f /\
   fst (FontSketch.draw r f)
   = ([mkPainted "100-Day Countdown" 255], Threw "TypeError")).
Proof.
  intros s f r.
  pose proof (@C8_sampling_throttle Gregorian.utc r s f) as [_ [Hsk [_ Hfs]]].
  split.
  - apply Hsk. vm_compute. reflexivity.
  - destruct Hfs as [Hsame _]; [vm_compute; reflexivity|].
    split; [exact Hsame|]. vm_compute. reflexivity.
Defined.
